(** * Market conventions: day-count fractions and business-day roll conventions

    A shallow embedding of [market_conventions/daycount.py],
    [market_conventions/date_utils.py] and
    [market_conventions/rollconvention.py].

    - Python integers are unbounded and are modelled by [Z]; [//] and [%]
      with a positive divisor are [Z.div] and [Z.modulo].
    - Python floats are IEEE 754 binary64 and are modelled by Rocq's primitive
      [float]; the float comparison [==] is [PrimFloat.eqb].
    - [datetime.date] is a record of year, month and day.  Its arithmetic goes
      through the proleptic Gregorian ordinal exactly as in CPython's
      [datetime] module, and raises [OverflowError] outside
      [date.min .. date.max].
    - A holiday [set] is a finite set of dates, [gset date].
    - A [while] loop is run with a fuel argument; [None] means that the fuel
      ran out before the loop ended, [Some (Raise e)] that the exception [e]
      left the loop, [Some (Ok v)] that the method returned [v]. *)

From Stdlib Require Import ZArith Lia Bool List.
From Stdlib Require Import Floats.
From stdpp Require Import base decidable countable gmap sets.

Open Scope Z_scope.

(** ** Exceptions and results *)

Inductive exn := OverflowError.

Inductive result (A : Type) :=
| Ok (a : A)
| Raise (e : exn).

Arguments Ok {A} a.
Arguments Raise {A} e.

(** A fuelled computation [run] ends with [r] when some amount of fuel lets
    it produce [r]. *)
Definition ends_with {A : Type} (run : nat -> option (result A)) (r : result A) : Prop :=
  exists fuel : nat, run fuel = Some r.

Notation "run '~~>' r" := (ends_with run r) (at level 70, no associativity).

(** ** The part of Python's [datetime] module the conventions rely on *)

Module datetime.

Record date := mkdate { year : Z; month : Z; day : Z }.

Definition MINYEAR : Z := 1.
Definition MAXYEAR : Z := 9999.
Definition _MAXORDINAL : Z := 3652059.

Definition _DAYS_IN_MONTH (m : Z) : Z :=
  match m with
  | 1 => 31 | 2 => 28 | 3 => 31 | 4 => 30 | 5 => 31 | 6 => 30
  | 7 => 31 | 8 => 31 | 9 => 30 | 10 => 31 | 11 => 30 | 12 => 31
  | _ => -1
  end.

Definition _DAYS_BEFORE_MONTH (m : Z) : Z :=
  match m with
  | 1 => 0 | 2 => 31 | 3 => 59 | 4 => 90 | 5 => 120 | 6 => 151
  | 7 => 181 | 8 => 212 | 9 => 243 | 10 => 273 | 11 => 304 | 12 => 334
  | _ => -1
  end.

Definition _is_leap (y : Z) : bool :=
  (y mod 4 =? 0) && (negb (y mod 100 =? 0) || (y mod 400 =? 0)).

Definition _days_before_year (y : Z) : Z :=
  let y := y - 1 in
  y * 365 + y / 4 - y / 100 + y / 400.

Definition _days_in_month (y m : Z) : Z :=
  if (m =? 2) && _is_leap y then 29 else _DAYS_IN_MONTH m.

Definition _days_before_month (y m : Z) : Z :=
  _DAYS_BEFORE_MONTH m + (if (2 <? m) && _is_leap y then 1 else 0).

Definition _ymd2ord (y m d : Z) : Z :=
  _days_before_year y + _days_before_month y m + d.

Definition _DI400Y : Z := 146097.
Definition _DI100Y : Z := 36524.
Definition _DI4Y : Z := 1461.

Definition _ord2ymd (n : Z) : date :=
  let n := n - 1 in
  let n400 := n / _DI400Y in
  let n := n mod _DI400Y in
  let year := n400 * 400 + 1 in
  let n100 := n / _DI100Y in
  let n := n mod _DI100Y in
  let n4 := n / _DI4Y in
  let n := n mod _DI4Y in
  let n1 := n / 365 in
  let n := n mod 365 in
  let year := year + (n100 * 100 + n4 * 4 + n1) in
  if (n1 =? 4) || (n100 =? 4) then mkdate (year - 1) 12 31
  else
    let leapyear := (n1 =? 3) && (negb (n4 =? 24) || (n100 =? 3)) in
    let month := Z.shiftr (n + 50) 5 in
    let preceding :=
      _DAYS_BEFORE_MONTH month + (if (2 <? month) && leapyear then 1 else 0) in
    if n <? preceding then
      let month := month - 1 in
      let preceding :=
        preceding - (_DAYS_IN_MONTH month + (if (month =? 2) && leapyear then 1 else 0)) in
      mkdate year month (n - preceding + 1)
    else mkdate year month (n - preceding + 1).

(** [date.toordinal()], [date.fromordinal(n)] and [date.weekday()]. *)
Definition toordinal (d : date) : Z := _ymd2ord (year d) (month d) (day d).

Definition fromordinal (n : Z) : date := _ord2ymd n.

Definition weekday (d : date) : Z := (toordinal d + 6) mod 7.

(** [d + timedelta(days=n)]. *)
Definition add_days (d : date) (n : Z) : result date :=
  let o := toordinal d + n in
  if (0 <? o) && (o <=? _MAXORDINAL) then Ok (fromordinal o)
  else Raise OverflowError.

(** [d - timedelta(days=n)], which Python computes as [d + timedelta(-n)]. *)
Definition sub_days (d : date) (n : Z) : result date := add_days d (- n).

(** [(d2 - d1).days]. *)
Definition days_between (d2 d1 : date) : Z := toordinal d2 - toordinal d1.

(** [d.replace(day=n)].  The constructor's check is left out: the day given
    is 1, which every month has. *)
Definition replace_day (d : date) (n : Z) : date := mkdate (year d) (month d) n.

(** The first day of the month after month [m] of year [y]. *)
Definition next_month_start (y m : Z) : date :=
  if m =? 12 then mkdate (y + 1) 1 1 else mkdate y (m + 1) 1.

(** The dates the [date] constructor accepts. *)
Definition valid_date (d : date) : bool :=
  (MINYEAR <=? year d) && (year d <=? MAXYEAR)
  && (1 <=? month d) && (month d <=? 12)
  && (1 <=? day d) && (day d <=? _days_in_month (year d) (month d)).

(** A date whose month and day exist, whatever its year. *)
Definition well_formed (d : date) : Prop :=
  1 <= month d <= 12 /\ 1 <= day d <= _days_in_month (year d) (month d).

#[global] Instance date_eq_dec : EqDecision date.
Proof. solve_decision. Defined.

#[global] Instance date_countable : Countable date :=
  inj_countable'
    (fun d => (year d, month d, day d))
    (fun t => match t with (y, m, d) => mkdate y m d end)
    (fun d => match d with mkdate _ _ _ => eq_refl end).

End datetime.

Import datetime.

(** ** Python's true division, on the arguments the day counts give it *)

(** [float(n)]: the conversion of an integer to a float, through its
    magnitude as CPython does it.  It is exact below [2^53], which is far
    above any number of days between two dates. *)
Definition float_of_int (n : Z) : float :=
  match n with
  | Z0 => 0%float
  | Zpos p => PrimFloat.of_uint63 (Uint63.of_Z (Zpos p))
  | Zneg p => (- PrimFloat.of_uint63 (Uint63.of_Z (Zpos p)))%float
  end.

(** [n / x] for an integer [n] and a float [x]. *)
Definition truediv_int_float (n : Z) (x : float) : float :=
  (float_of_int n / x)%float.

(** [n / k] for two integers, [k] being 365 or 366 here. *)
Definition truediv_int_int (n k : Z) : float :=
  (float_of_int n / float_of_int k)%float.

(** The float comparison [x == y]. *)
Definition float_eq (x y : float) : Prop := PrimFloat.eqb x y = true.

(** A finite positive float, as the divisors [360.0], [365.0], [365] and
    [366] are. *)
Definition finite_positive (x : float) : Prop :=
  exists (m : positive) (e : Z), Prim2SF x = S754_finite false m e.

(** A float that is not NaN and is zero or has the sign [s]. *)
Definition SFsigned (s : bool) (x : spec_float) : Prop :=
  match x with
  | S754_nan => False
  | S754_zero _ => True
  | S754_infinity sx => sx = s
  | S754_finite sx _ _ => sx = s
  end.

(** [all_pos depth p P]: [P] holds of [p] and of every positive number
    obtained from [p] by appending up to [depth] binary digits. *)
Fixpoint all_pos (depth : nat) (p : positive) (P : positive -> bool) : bool :=
  P p && match depth with
         | O => true
         | S depth => all_pos depth (xO p) P && all_pos depth (xI p) P
         end.

(** [p / 360.0] and [(p + 1) / 360.0] are different floats, for [==]. *)
Definition quotients_differ (p : positive) : bool :=
  let a := truediv_int_float (Zpos p) 360 in
  let b := truediv_int_float (Zpos p + 1) 360 in
  negb (a =? b)%float && negb (b =? a)%float.

(** ** date_utils.py *)

Module date_utils.

Definition is_end_of_month (date : date) : result bool :=
  match add_days date 1 with
  | Ok next_day => Ok (negb (month next_day =? month date))
  | Raise e => Raise e
  end.

Definition end_of_month (date : date) : result datetime.date :=
  match is_end_of_month date with
  | Ok true => Ok date
  | Ok false =>
      match add_days (replace_day date 1) 32 with
      | Ok next => sub_days (replace_day next 1) 1
      | Raise e => Raise e
      end
  | Raise e => Raise e
  end.

Definition is_business_day (date : date) (holidays : gset datetime.date) : bool :=
  (weekday date <? 5) && negb (bool_decide (date ∈ holidays)).

End date_utils.

(** ** daycount.py *)

Inductive DayCountConvention :=
| ACTUAL_360
| ACTUAL_365
| ACTUAL_ACTUAL
| THIRTY_360
| THIRTY_360_US
| THIRTY_360_EU.

Module Actual360.

Definition year_fraction (start_date end_date : date) : float :=
  let time_delta := days_between end_date start_date in
  truediv_int_float time_delta 360%float.

End Actual360.

Module Actual365.

Definition year_fraction (start_date end_date : date) : float :=
  let time_delta := days_between end_date start_date in
  truediv_int_float time_delta 365%float.

End Actual365.

Module ActualActual.

Definition year_fraction (start_date end_date : date) : float :=
  let time_delta := days_between end_date start_date in
  let year_length :=
    if (year start_date mod 4 =? 0)
       && (negb (year start_date mod 100 =? 0) || (year start_date mod 400 =? 0))
    then 366 else 365 in
  truediv_int_int time_delta year_length.

End ActualActual.

Module Thirty360.

Definition year_fraction (start_date end_date : date) : float :=
  let d1 := Z.min (day start_date) 30 in
  let d2 := Z.min (day end_date) 30 in
  let m1 := month start_date in
  let m2 := month end_date in
  let y1 := year start_date in
  let y2 := year end_date in
  truediv_int_float (360 * (y2 - y1) + 30 * (m2 - m1) + (d2 - d1)) 360%float.

End Thirty360.

Module Thirty360US.

Definition year_fraction (start_date end_date : date) : float :=
  let d1 := day start_date in
  let d2 := day end_date in
  let m1 := month start_date in
  let m2 := month end_date in
  let y1 := year start_date in
  let y2 := year end_date in
  let d1 := if d1 =? 31 then 30 else d1 in
  let d2 := if (d2 =? 31) && (d1 =? 30) then 30 else d2 in
  truediv_int_float (360 * (y2 - y1) + 30 * (m2 - m1) + (d2 - d1)) 360%float.

End Thirty360US.

Module Thirty360EU.

Definition year_fraction (start_date end_date : date) : float :=
  let d1 := Z.min (day start_date) 30 in
  let d2 := Z.min (day end_date) 30 in
  let m1 := month start_date in
  let m2 := month end_date in
  let y1 := year start_date in
  let y2 := year end_date in
  let d1 := if d1 =? 31 then 30 else d1 in
  let d2 := if d2 =? 31 then 30 else d2 in
  truediv_int_float (360 * (y2 - y1) + 30 * (m2 - m1) + (d2 - d1)) 360%float.

End Thirty360EU.

(** The class that implements each convention tag. *)
Definition year_fraction (convention : DayCountConvention) : date -> date -> float :=
  match convention with
  | ACTUAL_360 => Actual360.year_fraction
  | ACTUAL_365 => Actual365.year_fraction
  | ACTUAL_ACTUAL => ActualActual.year_fraction
  | THIRTY_360 => Thirty360.year_fraction
  | THIRTY_360_US => Thirty360US.year_fraction
  | THIRTY_360_EU => Thirty360EU.year_fraction
  end.

(** ** rollconvention.py *)

(** Sequencing of fuelled computations: an exception or a lack of fuel in
    the first part ends the whole. *)
Definition bind {A B : Type} (m : option (result A)) (k : A -> option (result B))
  : option (result B) :=
  match m with
  | Some (Ok a) => k a
  | Some (Raise e) => Some (Raise e)
  | None => None
  end.

Notation "'do' x <- m ; k" := (bind m (fun x => k))
  (at level 10, x name, m at level 100, k at level 200).

(** [while not date_utils.is_business_day(date, holidays): date = step(date)],
    followed by the value of [date]. *)
Fixpoint while_not_business_day (step : date -> result date)
  (holidays : gset date) (date : date) (fuel : nat) : option (result datetime.date) :=
  match fuel with
  | O => None
  | S fuel =>
      if negb (date_utils.is_business_day date holidays) then
        match step date with
        | Ok date => while_not_business_day step holidays date fuel
        | Raise e => Some (Raise e)
        end
      else Some (Ok date)
  end.

Module Following.

Definition adjustDay (date : date) (holidays : gset datetime.date) (fuel : nat)
  : option (result datetime.date) :=
  while_not_business_day (fun date => add_days date 1) holidays date fuel.

End Following.

Module ModifiedFollowing.

Definition adjustDay (date : date) (holidays : gset datetime.date) (fuel : nat)
  : option (result datetime.date) :=
  let original_month := month date in
  do date <- while_not_business_day (fun date => add_days date 1) holidays date fuel;
  if negb (month date =? original_month) then
    do date <- Some (sub_days date 1);
    while_not_business_day (fun date => sub_days date 1) holidays date fuel
  else Some (Ok date).

End ModifiedFollowing.

Module Preceding.

Definition adjustDay (date : date) (holidays : gset datetime.date) (fuel : nat)
  : option (result datetime.date) :=
  while_not_business_day (fun date => sub_days date 1) holidays date fuel.

End Preceding.

Module ModifiedPreceding.

Definition adjustDay (date : date) (holidays : gset datetime.date) (fuel : nat)
  : option (result datetime.date) :=
  let original_month := month date in
  do date <- while_not_business_day (fun date => sub_days date 1) holidays date fuel;
  if negb (month date =? original_month) then
    do date <- Some (add_days date 1);
    while_not_business_day (fun date => add_days date 1) holidays date fuel
  else Some (Ok date).

End ModifiedPreceding.

(** The walk in direction [s], one day forward ([s = 1], the loop of
    [Following]) or back ([s = -1], the loop of [Preceding]). *)
Definition walk (holidays : gset date) (s : Z) : date -> nat -> option (result date) :=
  while_not_business_day (fun date => add_days date s) holidays.

(** ** Inputs of the examples *)

(** Every day from 2023-01-31 to 2023-12-31 declared a holiday. *)
Definition holidays_of_2023 : gset date :=
  list_to_set
    (map (fun i : nat => fromordinal (toordinal (mkdate 2023 1 31) + Z.of_nat i))
       (seq 0 335)).

(** * Properties *)

(** ** The calendar *)

(** Evaluates the month tables and the comparisons of literals in the goal. *)
Ltac month_tables :=
  repeat match goal with
    | |- context [_DAYS_BEFORE_MONTH (Zpos ?p)] =>
        let v := eval vm_compute in (_DAYS_BEFORE_MONTH (Zpos p)) in
        change (_DAYS_BEFORE_MONTH (Zpos p)) with v
    | |- context [_DAYS_IN_MONTH (Zpos ?p)] =>
        let v := eval vm_compute in (_DAYS_IN_MONTH (Zpos p)) in
        change (_DAYS_IN_MONTH (Zpos p)) with v
    | |- context [Zpos ?p <? Zpos ?q] =>
        let v := eval vm_compute in (Zpos p <? Zpos q) in
        change (Zpos p <? Zpos q) with v
    | |- context [Zpos ?p =? Zpos ?q] =>
        let v := eval vm_compute in (Zpos p =? Zpos q) in
        change (Zpos p =? Zpos q) with v
    end;
  cbn [andb orb negb].

Section Calendar.

Lemma days_before_year_succ (y : Z) :
  _days_before_year (y + 1) = _days_before_year y + (if _is_leap y then 366 else 365).
Proof.
  unfold _days_before_year, _is_leap.
  replace (y + 1 - 1) with y by lia.
  destruct (Z.eqb_spec (y mod 4) 0), (Z.eqb_spec (y mod 100) 0),
    (Z.eqb_spec (y mod 400) 0); cbn [andb orb negb];
    Z.div_mod_to_equations; lia.
Qed.

Lemma days_before_year_cycle (a b c e : Z) :
  0 <= b <= 3 -> 0 <= c <= 24 -> 0 <= e <= 3 ->
  _days_before_year (400 * a + 100 * b + 4 * c + e + 1)
  = 146097 * a + 36524 * b + 1461 * c + 365 * e.
Proof.
  intros Hb Hc He. unfold _days_before_year.
  replace (400 * a + 100 * b + 4 * c + e + 1 - 1)
    with (400 * a + 100 * b + 4 * c + e) by lia.
  Z.div_mod_to_equations. lia.
Qed.

Lemma is_leap_cycle (a b c e : Z) :
  0 <= b <= 3 -> 0 <= c <= 24 -> 0 <= e <= 3 ->
  _is_leap (400 * a + 100 * b + 4 * c + e + 1)
  = (e =? 3) && (negb (c =? 24) || (b =? 3)).
Proof.
  intros Hb Hc He. unfold _is_leap.
  destruct (Z.eqb_spec ((400 * a + 100 * b + 4 * c + e + 1) mod 4) 0),
    (Z.eqb_spec ((400 * a + 100 * b + 4 * c + e + 1) mod 100) 0),
    (Z.eqb_spec ((400 * a + 100 * b + 4 * c + e + 1) mod 400) 0),
    (Z.eqb_spec e 3), (Z.eqb_spec c 24), (Z.eqb_spec b 3);
    cbn [andb orb negb]; try reflexivity; exfalso;
    Z.div_mod_to_equations; lia.
Qed.

(** The month and day that [_ord2ymd] finds for the zero-based day [k] of a
    year: the estimate [(k + 50) >> 5], corrected once when too large. *)
Lemma month_estimate (leap : bool) (k : Z) :
  0 <= k <= 364 ->
  let month := Z.shiftr (k + 50) 5 in
  let preceding := _DAYS_BEFORE_MONTH month + (if (2 <? month) && leap then 1 else 0) in
  let m := if k <? preceding then month - 1 else month in
  let p := if k <? preceding
           then preceding - (_DAYS_IN_MONTH (month - 1)
                             + (if (month - 1 =? 2) && leap then 1 else 0))
           else preceding in
  let before := _DAYS_BEFORE_MONTH m + (if (2 <? m) && leap then 1 else 0) in
  let length := _DAYS_IN_MONTH m + (if (m =? 2) && leap then 1 else 0) in
  1 <= m <= 12 /\ p = before /\ 0 <= k - p < length.
Proof.
  intros Hk month preceding.
  assert (Hk32 : 32 * month <= k + 50 < 32 * month + 32).
  { subst month. rewrite Z.shiftr_div_pow2 by lia. change (2 ^ 5) with 32.
    Z.div_mod_to_equations. lia. }
  clearbody month.
  assert (Hcases : month = 1 \/ month = 2 \/ month = 3 \/ month = 4 \/ month = 5
                   \/ month = 6 \/ month = 7 \/ month = 8 \/ month = 9
                   \/ month = 10 \/ month = 11 \/ month = 12) by lia.
  repeat (destruct Hcases as [-> | Hcases]); [.. | subst month];
    destruct leap; vm_compute in preceding; subst preceding;
    match goal with
    | |- context [k <? ?c] => destruct (Z.ltb_spec k c)
    end;
    intros m p before length;
    vm_compute in m; vm_compute in p; vm_compute in before; vm_compute in length;
    subst m p before length; lia.
Qed.

(** [_ord2ymd] returns a month and a day that exist, and [_ymd2ord] maps them
    back to the ordinal. *)
Lemma ord2ymd_spec (n : Z) :
  1 <= month (_ord2ymd n) <= 12
  /\ 1 <= day (_ord2ymd n) <= _days_in_month (year (_ord2ymd n)) (month (_ord2ymd n))
  /\ toordinal (_ord2ymd n) = n.
Proof.
  unfold _ord2ymd, _DI400Y, _DI100Y, _DI4Y. cbv zeta.
  pose proof (Z.div_mod (n - 1) 146097 ltac:(lia)) as E1.
  pose proof (Z.mod_pos_bound (n - 1) 146097 ltac:(lia)) as B1.
  remember ((n - 1) / 146097) as a. remember ((n - 1) mod 146097) as r1.
  pose proof (Z.div_mod r1 36524 ltac:(lia)) as E2.
  pose proof (Z.mod_pos_bound r1 36524 ltac:(lia)) as B2.
  remember (r1 / 36524) as b. remember (r1 mod 36524) as r2.
  pose proof (Z.div_mod r2 1461 ltac:(lia)) as E3.
  pose proof (Z.mod_pos_bound r2 1461 ltac:(lia)) as B3.
  remember (r2 / 1461) as c. remember (r2 mod 1461) as r3.
  pose proof (Z.div_mod r3 365 ltac:(lia)) as E4.
  pose proof (Z.mod_pos_bound r3 365 ltac:(lia)) as B4.
  remember (r3 / 365) as e. remember (r3 mod 365) as k.
  clear Heqa Heqr1 Heqb Heqr2 Heqc Heqr3 Heqe Heqk.
  assert (Hb : 0 <= b <= 4) by lia.
  assert (Hc : 0 <= c <= 24) by lia.
  assert (He : 0 <= e <= 4) by lia.
  unfold toordinal, _ymd2ord, _days_in_month, _days_before_month.
  destruct (Z.eqb_spec e 4) as [He4 | He4]; [| destruct (Z.eqb_spec b 4) as [Hb4 | Hb4]];
    cbn [orb year month day].
  - (* the last day of the fourth year of a four-year cycle *)
    replace (a * 400 + 1 + (b * 100 + c * 4 + e) - 1)
      with (400 * a + 100 * b + 4 * c + 3 + 1) by lia.
    rewrite (is_leap_cycle a b c 3) by lia.
    rewrite (days_before_year_cycle a b c 3) by lia.
    change (12 =? 2) with false. change (2 <? 12) with true.
    change (3 =? 3) with true. cbn [andb _DAYS_IN_MONTH _DAYS_BEFORE_MONTH].
    destruct (Z.eqb_spec c 24); [lia |]. cbn [negb orb]. lia.
  - (* the last day of a 400-year cycle *)
    replace (a * 400 + 1 + (b * 100 + c * 4 + e) - 1)
      with (400 * a + 100 * 3 + 4 * 24 + 3 + 1) by lia.
    rewrite (is_leap_cycle a 3 24 3) by lia.
    rewrite (days_before_year_cycle a 3 24 3) by lia.
    change (12 =? 2) with false. change (2 <? 12) with true.
    cbn. lia.
  - replace (a * 400 + 1 + (b * 100 + c * 4 + e))
      with (400 * a + 100 * b + 4 * c + e + 1) by lia.
    set (Y := 400 * a + 100 * b + 4 * c + e + 1).
    assert (Hleap : _is_leap Y = (e =? 3) && (negb (c =? 24) || (b =? 3)))
      by (apply is_leap_cycle; lia).
    assert (Hdby : _days_before_year Y = 146097 * a + 36524 * b + 1461 * c + 365 * e)
      by (apply days_before_year_cycle; lia).
    remember ((e =? 3) && (negb (c =? 24) || (b =? 3))) as leap eqn:Hl. clear Hl.
    pose proof (month_estimate leap k ltac:(lia)) as Hm. cbv zeta in Hm.
    destruct Hm as (Hm1 & Hm2 & Hm3).
    destruct (k <? _DAYS_BEFORE_MONTH (Z.shiftr (k + 50) 5)
                   + (if (2 <? Z.shiftr (k + 50) 5) && leap then 1 else 0));
      cbn [year month day]; rewrite Hleap, Hdby;
      try rewrite Hm2 in Hm3; try rewrite Hm2; clear Hm2;
      match goal with
      | |- context [_DAYS_IN_MONTH ?m] => generalize dependent m
      end;
      intros m Hm1 Hm3;
      (destruct (Z.eqb_spec m 2) as [-> | Hm2];
       [change (_DAYS_IN_MONTH 2) with 28 in *; change (2 <? 2) with false in * |]);
      destruct leap;
      try match goal with
          | |- context [2 <? ?x] => destruct (2 <? x)
          end;
      cbn [andb] in *; lia.
Qed.

Lemma valid_date_spec (d : date) :
  valid_date d = true <->
  1 <= year d <= 9999 /\ 1 <= month d <= 12
  /\ 1 <= day d <= _days_in_month (year d) (month d).
Proof.
  unfold valid_date, MINYEAR, MAXYEAR.
  rewrite !andb_true_iff, !Z.leb_le. tauto.
Qed.

Lemma days_before_year_mono (y1 y2 : Z) :
  y1 <= y2 -> _days_before_year y1 <= _days_before_year y2.
Proof.
  intros Hy. unfold _days_before_year. Z.div_mod_to_equations. lia.
Qed.

(** The day of the year, [_days_before_month y m + d], lies in the year. *)
Lemma day_of_year_bounds (y m d : Z) :
  1 <= m <= 12 -> 1 <= d <= _days_in_month y m ->
  1 <= _days_before_month y m + d <= (if _is_leap y then 366 else 365).
Proof.
  intros Hm. unfold _days_in_month, _days_before_month.
  assert (Hcases : m = 1 \/ m = 2 \/ m = 3 \/ m = 4 \/ m = 5 \/ m = 6 \/ m = 7
                   \/ m = 8 \/ m = 9 \/ m = 10 \/ m = 11 \/ m = 12) by lia.
  repeat (destruct Hcases as [-> | Hcases]); [.. | subst m];
    destruct (_is_leap y); month_tables; lia.
Qed.

Lemma day_of_year_lt (y m1 d1 m2 d2 : Z) :
  1 <= m1 <= 12 -> 1 <= d1 <= _days_in_month y m1 ->
  1 <= m2 <= 12 -> 1 <= d2 <= _days_in_month y m2 ->
  m1 < m2 \/ (m1 = m2 /\ d1 < d2) ->
  _days_before_month y m1 + d1 < _days_before_month y m2 + d2.
Proof.
  intros Hm1 Hd1 Hm2. revert Hd1. unfold _days_in_month, _days_before_month.
  assert (Hc1 : m1 = 1 \/ m1 = 2 \/ m1 = 3 \/ m1 = 4 \/ m1 = 5 \/ m1 = 6 \/ m1 = 7
                \/ m1 = 8 \/ m1 = 9 \/ m1 = 10 \/ m1 = 11 \/ m1 = 12) by lia.
  assert (Hc2 : m2 = 1 \/ m2 = 2 \/ m2 = 3 \/ m2 = 4 \/ m2 = 5 \/ m2 = 6 \/ m2 = 7
                \/ m2 = 8 \/ m2 = 9 \/ m2 = 10 \/ m2 = 11 \/ m2 = 12) by lia.
  destruct (_is_leap y);
    repeat (destruct Hc1 as [-> | Hc1]); try subst m1; month_tables;
    repeat (destruct Hc2 as [-> | Hc2]); try subst m2; month_tables; lia.
Qed.

Lemma valid_date_well_formed (d : date) : valid_date d = true -> well_formed d.
Proof. rewrite valid_date_spec. unfold well_formed. tauto. Qed.

Lemma toordinal_in_year (d : date) :
  well_formed d ->
  _days_before_year (year d) < toordinal d <= _days_before_year (year d + 1).
Proof.
  intros [Hm Hd]. unfold toordinal, _ymd2ord.
  pose proof (day_of_year_bounds (year d) (month d) (day d) Hm Hd) as Hdoy.
  rewrite days_before_year_succ. lia.
Qed.

(** The ordinal grows with the year and the month. *)
Lemma toordinal_lt_month (d1 d2 : date) :
  well_formed d1 -> well_formed d2 ->
  year d1 < year d2 \/ (year d1 = year d2 /\ month d1 < month d2) ->
  toordinal d1 < toordinal d2.
Proof.
  intros H1 H2 [Hy | [Hy Hm]].
  - pose proof (toordinal_in_year d1 H1). pose proof (toordinal_in_year d2 H2).
    pose proof (days_before_year_mono (year d1 + 1) (year d2) ltac:(lia)). lia.
  - destruct H1 as [Hm1 Hd1], H2 as [Hm2 Hd2]. unfold toordinal, _ymd2ord.
    rewrite Hy in *.
    pose proof (day_of_year_lt (year d2) (month d1) (day d1) (month d2) (day d2)
                  Hm1 Hd1 Hm2 Hd2 ltac:(lia)). lia.
Qed.

Lemma toordinal_inj (d1 d2 : date) :
  well_formed d1 -> well_formed d2 -> toordinal d1 = toordinal d2 -> d1 = d2.
Proof.
  intros H1 H2 Heq.
  assert (Hy : year d1 = year d2).
  { destruct (Z.lt_trichotomy (year d1) (year d2)) as [Hlt | [Hy | Hlt]]; [| exact Hy |].
    - pose proof (toordinal_lt_month d1 d2 H1 H2 ltac:(lia)). lia.
    - pose proof (toordinal_lt_month d2 d1 H2 H1 ltac:(lia)). lia. }
  assert (Hm : month d1 = month d2).
  { destruct (Z.lt_trichotomy (month d1) (month d2)) as [Hlt | [Hm | Hlt]]; [| exact Hm |].
    - pose proof (toordinal_lt_month d1 d2 H1 H2 ltac:(lia)). lia.
    - pose proof (toordinal_lt_month d2 d1 H2 H1 ltac:(lia)). lia. }
  destruct d1 as [y1 m1 dd1], d2 as [y2 m2 dd2]. cbn [year month day] in *.
  subst y2 m2. unfold toordinal, _ymd2ord in Heq. cbn [year month day] in Heq.
  f_equal. lia.
Qed.

Lemma fromordinal_well_formed (n : Z) : well_formed (fromordinal n).
Proof. destruct (ord2ymd_spec n) as (Hm & Hd & _). split; assumption. Qed.

Lemma toordinal_fromordinal (n : Z) : toordinal (fromordinal n) = n.
Proof. apply ord2ymd_spec. Qed.

Lemma fromordinal_toordinal (d : date) :
  well_formed d -> fromordinal (toordinal d) = d.
Proof.
  intros Hd. apply toordinal_inj; [apply fromordinal_well_formed | exact Hd |].
  apply toordinal_fromordinal.
Qed.

(** The valid dates are the ordinals from 1 ([date.min]) to [_MAXORDINAL]
    ([date.max]). *)
Lemma toordinal_range (d : date) :
  valid_date d = true -> 1 <= toordinal d <= _MAXORDINAL.
Proof.
  intros Hv. pose proof (valid_date_well_formed d Hv) as Hwf.
  apply valid_date_spec in Hv. destruct Hv as (Hy & _).
  pose proof (toordinal_in_year d Hwf).
  pose proof (days_before_year_mono 1 (year d) ltac:(lia)) as Hlo.
  pose proof (days_before_year_mono (year d + 1) 10000 ltac:(lia)) as Hhi.
  change (_days_before_year 1) with 0 in Hlo.
  change (_days_before_year 10000) with 3652059 in Hhi.
  unfold _MAXORDINAL. lia.
Qed.

Lemma fromordinal_valid (n : Z) :
  1 <= n <= _MAXORDINAL -> valid_date (fromordinal n) = true.
Proof.
  intros Hn. pose proof (fromordinal_well_formed n) as Hwf.
  pose proof (toordinal_in_year _ Hwf) as Hin. rewrite toordinal_fromordinal in Hin.
  apply valid_date_spec. destruct Hwf as [Hm Hd]. repeat split; try lia.
  - destruct (Z.le_gt_cases 1 (year (fromordinal n))) as [Hy | Hy]; [exact Hy |].
    pose proof (days_before_year_mono (year (fromordinal n) + 1) 1 ltac:(lia)) as Hlo.
    change (_days_before_year 1) with 0 in Hlo. lia.
  - destruct (Z.le_gt_cases (year (fromordinal n)) 9999) as [Hy | Hy]; [exact Hy |].
    pose proof (days_before_year_mono 10000 (year (fromordinal n)) ltac:(lia)) as Hhi.
    change (_days_before_year 10000) with 3652059 in Hhi.
    unfold _MAXORDINAL in Hn. lia.
Qed.

Lemma add_days_Ok (d d' : date) (k : Z) :
  add_days d k = Ok d' ->
  valid_date d' = true /\ toordinal d' = toordinal d + k
  /\ 1 <= toordinal d + k <= _MAXORDINAL.
Proof.
  unfold add_days.
  destruct (Z.ltb_spec 0 (toordinal d + k)), (Z.leb_spec (toordinal d + k) _MAXORDINAL);
    cbn [andb]; intros Heq; try discriminate Heq; injection Heq as <-.
  split; [apply fromordinal_valid; lia |]. rewrite toordinal_fromordinal. lia.
Qed.

Lemma add_days_Raise (d : date) (k : Z) (e : exn) :
  add_days d k = Raise e ->
  e = OverflowError /\ ~ 1 <= toordinal d + k <= _MAXORDINAL.
Proof.
  unfold add_days.
  destruct (Z.ltb_spec 0 (toordinal d + k)), (Z.leb_spec (toordinal d + k) _MAXORDINAL);
    cbn [andb]; intros Heq; try discriminate Heq; destruct e;
    (split; [reflexivity | lia]).
Qed.

End Calendar.

(** ** Rounding of binary64 floats

    Facts on the specification of the IEEE operations that the day counts
    need: rounding never invents a NaN, and division commutes with the sign
    of the dividend. *)

Section Rounding.

Variables prec emax : Z.

Lemma shr_1_nonneg (mrs : shr_record) : 0 <= shr_m mrs -> 0 <= shr_m (shr_1 mrs).
Proof.
  destruct mrs as [m r s]. cbn [shr_m shr_1].
  destruct m as [| [p | p |] | [p | p |]]; cbn [shr_m]; lia.
Qed.

Lemma iter_shr_1_nonneg (p : positive) (mrs : shr_record) :
  0 <= shr_m mrs -> 0 <= shr_m (SpecFloat.iter_pos shr_1 p mrs).
Proof.
  revert mrs. induction p as [p IH | p IH |]; intros mrs Hm; cbn [SpecFloat.iter_pos];
    auto using shr_1_nonneg.
Qed.

Lemma shr_fexp_nonneg (m e : Z) (l : location) :
  0 <= m -> 0 <= shr_m (fst (shr_fexp prec emax m e l)).
Proof.
  intros Hm. unfold shr_fexp, shr.
  assert (Hrec : 0 <= shr_m (shr_record_of_loc m l))
    by (destruct l as [| []]; exact Hm).
  destruct (fexp prec emax (Zdigits2 m + e) - e); cbn [fst];
    auto using iter_shr_1_nonneg.
Qed.

Lemma round_nearest_even_nonneg (m : Z) (l : location) :
  0 <= m -> 0 <= round_nearest_even m l.
Proof.
  intros Hm. destruct l as [| []]; cbn [round_nearest_even]; try lia.
  destruct (Z.even m); lia.
Qed.

Lemma binary_round_aux_not_nan (s : bool) (m e : Z) (l : location) :
  0 <= m -> binary_round_aux prec emax s m e l <> S754_nan.
Proof.
  intros Hm. unfold binary_round_aux.
  pose proof (shr_fexp_nonneg m e l Hm) as H1.
  destruct (shr_fexp prec emax m e l) as [mrs' e']. cbn [fst] in H1.
  pose proof (shr_fexp_nonneg _ e' loc_Exact
                (round_nearest_even_nonneg _ (loc_of_shr_record mrs') H1)) as H2.
  destruct (shr_fexp prec emax _ e' loc_Exact) as [mrs'' e'']. cbn [fst] in H2.
  destruct (shr_m mrs''); [discriminate | | lia].
  destruct (e'' <=? emax - prec); discriminate.
Qed.

Lemma binary_round_aux_opp (s : bool) (m e : Z) (l : location) :
  binary_round_aux prec emax (negb s) m e l = SFopp (binary_round_aux prec emax s m e l).
Proof.
  unfold binary_round_aux.
  destruct (shr_fexp prec emax m e l) as [mrs' e'].
  destruct (shr_fexp prec emax _ e' loc_Exact) as [mrs'' e''].
  destruct (shr_m mrs''); [reflexivity | | reflexivity].
  destruct (e'' <=? emax - prec); reflexivity.
Qed.

Lemma binary_normalize_not_nan (m e : Z) (szero : bool) :
  binary_normalize prec emax m e szero <> S754_nan.
Proof.
  destruct m as [| p | p]; cbn [binary_normalize]; [discriminate | |];
    unfold binary_round; destruct (shl_align _ _ _) as [mz ez];
    apply binary_round_aux_not_nan; lia.
Qed.

Lemma SFdiv_not_nan (x : spec_float) (s : bool) (m : positive) (e : Z) :
  x <> S754_nan -> SFdiv prec emax x (S754_finite s m e) <> S754_nan.
Proof.
  intros Hx. destruct x as [sx | sx | | sx mx ex]; cbn [SFdiv];
    [discriminate | discriminate | contradiction |].
  unfold SFdiv_core_binary.
  set (m' := match _ with Z0 => _ | Zpos _ => _ | Zneg _ => _ end).
  assert (Hm' : 0 <= m').
  { subst m'. destruct (ex - e - _) eqn:Hs; try lia.
    rewrite Z.shiftl_mul_pow2 by lia.
    apply Z.mul_nonneg_nonneg; [lia | apply Z.pow_nonneg; lia]. }
  pose proof (Z.div_pos m' (Zpos m) Hm' ltac:(lia)) as Hq.
  unfold Z.div in Hq. destruct (Z.div_eucl m' (Zpos m)) as [q r].
  apply binary_round_aux_not_nan. exact Hq.
Qed.

Lemma SFdiv_opp_l (x : spec_float) (m : positive) (e : Z) :
  SFdiv prec emax (SFopp x) (S754_finite false m e)
  = SFopp (SFdiv prec emax x (S754_finite false m e)).
Proof.
  destruct x as [sx | sx | | sx mx ex]; cbn [SFdiv SFopp]; try reflexivity.
  - rewrite !xorb_false_r. reflexivity.
  - rewrite !xorb_false_r. reflexivity.
  - destruct (SFdiv_core_binary prec emax (Zpos mx) ex (Zpos m) e) as [[mz ez] lz].
    rewrite !xorb_false_r. apply binary_round_aux_opp.
Qed.

Lemma SFopp_involutive (x : spec_float) : SFopp (SFopp x) = x.
Proof. destruct x; cbn [SFopp]; rewrite ?negb_involutive; reflexivity. Qed.

Lemma SFeqb_refl (x : spec_float) : x <> S754_nan -> SFeqb x x = true.
Proof.
  intros Hx. unfold SFeqb.
  destruct x as [s | s | | s m e]; cbn [SFcompare]; [reflexivity | | contradiction |].
  - destruct s; reflexivity.
  - rewrite Z.compare_refl. fold (Pos.compare m m). rewrite Pos.compare_refl.
    destruct s; reflexivity.
Qed.

End Rounding.

Section Floats.

Lemma finite_positive_360 : finite_positive 360%float.
Proof. do 2 eexists. vm_compute. reflexivity. Qed.

Lemma finite_positive_365 : finite_positive 365%float.
Proof. do 2 eexists. vm_compute. reflexivity. Qed.

Lemma finite_positive_year_length (leap : bool) :
  finite_positive (float_of_int (if leap then 366 else 365)).
Proof. destruct leap; do 2 eexists; vm_compute; reflexivity. Qed.

Lemma SFopp_not_nan (x : spec_float) : x <> S754_nan -> SFopp x <> S754_nan.
Proof. destruct x; cbn [SFopp]; congruence. Qed.

Lemma float_of_int_not_nan (n : Z) : Prim2SF (float_of_int n) <> S754_nan.
Proof.
  destruct n as [| p | p]; cbn [float_of_int].
  - vm_compute. discriminate.
  - rewrite of_uint63_spec. apply binary_normalize_not_nan.
  - rewrite opp_spec, of_uint63_spec. apply SFopp_not_nan, binary_normalize_not_nan.
Qed.

Lemma float_eq_refl (x : float) : Prim2SF x <> S754_nan -> float_eq x x.
Proof. intros Hx. unfold float_eq. rewrite FloatAxioms.eqb_spec. apply SFeqb_refl, Hx. Qed.

Lemma div_not_nan (a x : float) :
  Prim2SF a <> S754_nan -> finite_positive x -> Prim2SF (a / x) <> S754_nan.
Proof.
  intros Ha (m & e & Hx). rewrite div_spec, Hx. apply SFdiv_not_nan, Ha.
Qed.

Lemma truediv_int_float_not_nan (n : Z) (x : float) :
  finite_positive x -> Prim2SF (truediv_int_float n x) <> S754_nan.
Proof. intros Hx. apply div_not_nan; [apply float_of_int_not_nan | exact Hx]. Qed.

Lemma div_opp_l (a x : float) :
  finite_positive x -> (- a / x = - (a / x))%float.
Proof.
  intros (m & e & Hx). apply Prim2SF_inj.
  rewrite opp_spec, !div_spec, opp_spec, Hx. apply SFdiv_opp_l.
Qed.

Lemma opp_involutive (a : float) : (- - a = a)%float.
Proof. apply Prim2SF_inj. rewrite !opp_spec. apply SFopp_involutive. Qed.

Lemma float_of_int_opp (n : Z) :
  n <> 0 -> float_of_int (- n) = (- float_of_int n)%float.
Proof.
  destruct n as [| p | p]; intros Hn; cbn [float_of_int Z.opp];
    [contradiction | reflexivity | symmetry; apply opp_involutive].
Qed.

(** [(-n) / x == -(n / x)]: the quotient changes sign with the dividend. *)
Lemma truediv_opp (n : Z) (x : float) :
  finite_positive x ->
  float_eq (truediv_int_float (- n) x) (- truediv_int_float n x).
Proof.
  intros Hx. destruct (Z.eq_dec n 0) as [-> | Hn].
  - destruct Hx as (m & e & Hx). unfold float_eq, truediv_int_float.
    rewrite FloatAxioms.eqb_spec, opp_spec, !div_spec, Hx. vm_compute. reflexivity.
  - unfold truediv_int_float. rewrite float_of_int_opp by exact Hn.
    rewrite div_opp_l by exact Hx. apply float_eq_refl.
    rewrite opp_spec. apply SFopp_not_nan, div_not_nan;
      [apply float_of_int_not_nan | exact Hx].
Qed.

End Floats.

(** ** The business-day walk *)

Section Walk.

Variable holidays : gset date.

Lemma while_fuel_mono (step : date -> result date) (fuel fuel' : nat) (d : date)
  (res : result date) :
  while_not_business_day step holidays d fuel = Some res ->
  (fuel <= fuel')%nat ->
  while_not_business_day step holidays d fuel' = Some res.
Proof.
  revert fuel' d. induction fuel as [| fuel IH]; intros fuel' d Hrun Hle; [discriminate |].
  destruct fuel' as [| fuel']; [lia |]. cbn [while_not_business_day] in *.
  destruct (negb (date_utils.is_business_day d holidays)); [| exact Hrun].
  destruct (step d) as [d' | e]; [| exact Hrun].
  apply IH; [exact Hrun | lia].
Qed.

(** What a walk that ends has done: a returned date is the first business
    day met from [d] on, and an exception means that no valid date from [d]
    on in that direction is a business day. *)
Lemma walk_ends (s : Z) (fuel : nat) (d : date) (res : result date) :
  s = 1 \/ s = -1 ->
  valid_date d = true ->
  walk holidays s d fuel = Some res ->
  match res with
  | Ok r =>
      valid_date r = true
      /\ date_utils.is_business_day r holidays = true
      /\ 0 <= s * (toordinal r - toordinal d)
      /\ forall b, valid_date b = true ->
           0 <= s * (toordinal b - toordinal d) < s * (toordinal r - toordinal d) ->
           date_utils.is_business_day b holidays = false
  | Raise e =>
      e = OverflowError
      /\ forall b, valid_date b = true ->
           0 <= s * (toordinal b - toordinal d) ->
           date_utils.is_business_day b holidays = false
  end.
Proof.
  intros Hs. revert d res. unfold walk.
  induction fuel as [| fuel IH]; intros d res Hd Hrun; [discriminate |].
  cbn [while_not_business_day] in Hrun.
  destruct (date_utils.is_business_day d holidays) eqn:Hbd; cbn [negb] in Hrun.
  { injection Hrun as <-. repeat split; try assumption; [lia |]. intros b _ Hb. lia. }
  assert (Hsame : forall b, valid_date b = true -> toordinal b = toordinal d ->
                       date_utils.is_business_day b holidays = false).
  { intros b Hb Heq.
    rewrite (toordinal_inj b d) by auto using valid_date_well_formed. exact Hbd. }
  destruct (add_days d s) as [d' | e] eqn:Hstep.
  - apply add_days_Ok in Hstep. destruct Hstep as (Hd' & Hord & _).
    specialize (IH d' res Hd' Hrun). destruct res as [r | e].
    + destruct IH as (Hr & Hbr & Hdir & Hfirst). repeat split; try assumption.
      * destruct Hs; subst s; lia.
      * intros b Hb Hrange.
        destruct (Z.eq_dec (toordinal b) (toordinal d)) as [Heq | Hne];
          [apply Hsame; assumption |].
        apply Hfirst; [exact Hb |]. destruct Hs; subst s; lia.
    + destruct IH as (He & Hnone). split; [exact He |]. intros b Hb Hrange.
      destruct (Z.eq_dec (toordinal b) (toordinal d)) as [Heq | Hne];
        [apply Hsame; assumption |].
      apply Hnone; [exact Hb |]. destruct Hs; subst s; lia.
  - injection Hrun as <-. apply add_days_Raise in Hstep. destruct Hstep as [He Hout].
    split; [exact He |]. intros b Hb Hrange.
    apply Hsame; [exact Hb |].
    pose proof (toordinal_range b Hb). pose proof (toordinal_range d Hd).
    destruct Hs; subst s; lia.
Qed.

(** Dates are bounded, so the walk always ends: the days left up to
    [date.max], or down to [date.min], bound the fuel it needs. *)
Lemma walk_total (s : Z) (fuel : nat) (d : date) :
  s = 1 \/ s = -1 ->
  valid_date d = true ->
  (if s =? 1 then _MAXORDINAL - toordinal d else toordinal d - 1) < Z.of_nat fuel ->
  exists res, walk holidays s d fuel = Some res.
Proof.
  intros Hs. revert d. unfold walk.
  induction fuel as [| fuel IH]; intros d Hd Hfuel.
  { pose proof (toordinal_range d Hd). destruct Hs; subst s; cbn in Hfuel; lia. }
  cbn [while_not_business_day].
  destruct (negb (date_utils.is_business_day d holidays)); [| eexists; reflexivity].
  destruct (add_days d s) as [d' | e] eqn:Hstep; [| eexists; reflexivity].
  apply add_days_Ok in Hstep. destruct Hstep as (Hd' & Hord & _).
  apply IH; [exact Hd' |]. destruct Hs; subst s; cbn in Hfuel |- *; lia.
Qed.

End Walk.

(** ** Day counts *)

Section DayCount.

Lemma min_30_not_31 (d : Z) : (Z.min d 30 =? 31) = false.
Proof. apply Z.eqb_neq. lia. Qed.

Lemma Thirty360EU_is_Thirty360 (s e : date) :
  Thirty360EU.year_fraction s e = Thirty360.year_fraction s e.
Proof.
  unfold Thirty360EU.year_fraction, Thirty360.year_fraction. cbv zeta.
  rewrite !min_30_not_31. reflexivity.
Qed.

(** Without a 31st, the three clamps leave both days alone. *)
Lemma Thirty360US_is_Thirty360 (s e : date) :
  day s <= 31 -> day e <= 31 ->
  day e <> 31 \/ day s = 30 \/ day s = 31 ->
  Thirty360US.year_fraction s e = Thirty360.year_fraction s e.
Proof.
  intros Hs He Hcase.
  unfold Thirty360US.year_fraction, Thirty360.year_fraction. cbv zeta.
  f_equal. f_equal.
  destruct (Z.eqb_spec (day s) 31) as [Hs31 | Hs31].
  - change (30 =? 30) with true. rewrite andb_true_r.
    destruct (Z.eqb_spec (day e) 31); lia.
  - destruct (Z.eqb_spec (day e) 31) as [He31 | He31]; cbn [andb]; [| lia].
    destruct (Z.eqb_spec (day s) 30); lia.
Qed.

Lemma year_fraction_not_nan (c : DayCountConvention) (s e : date) :
  Prim2SF (year_fraction c s e) <> S754_nan.
Proof.
  destruct c; cbn [year_fraction];
    unfold Actual360.year_fraction, Actual365.year_fraction,
      ActualActual.year_fraction, Thirty360.year_fraction,
      Thirty360US.year_fraction, Thirty360EU.year_fraction; cbv zeta;
    try (apply truediv_int_float_not_nan;
         first [apply finite_positive_360 | apply finite_positive_365]).
  apply div_not_nan; [apply float_of_int_not_nan | apply finite_positive_year_length].
Qed.

End DayCount.

(** C3: for every pair of dates, [Thirty360EU.year_fraction] returns exactly the
    value of [Thirty360.year_fraction]: after [min(day, 30)] neither day is 31,
    so the two [== 31] branches of [Thirty360EU] are never taken. *)
Theorem Thirty360EU_equals_Thirty360 (start_date end_date : date) :
  (Z.min (day start_date) 30 =? 31) = false
  /\ (Z.min (day end_date) 30 =? 31) = false
  /\ Thirty360EU.year_fraction start_date end_date
     = Thirty360.year_fraction start_date end_date.
Proof.
  split; [apply min_30_not_31 |]. split; [apply min_30_not_31 |].
  apply Thirty360EU_is_Thirty360.
Qed.

(** C4: [Thirty360US.year_fraction] replaces the start day by 30 exactly when it
    is 31, replaces the end day by 30 exactly when the end day is 31 and the
    clamped start day is 30 (an end day 31 stays 31 otherwise), and returns
    [(360*(y2-y1) + 30*(m2-m1) + (d2'-d1')) / 360.0]. *)
Theorem Thirty360US_clamps (start_date end_date : date) :
  exists d1' d2' : Z,
    (day start_date = 31 -> d1' = 30)
    /\ (day start_date <> 31 -> d1' = day start_date)
    /\ (day end_date = 31 /\ d1' = 30 -> d2' = 30)
    /\ (~ (day end_date = 31 /\ d1' = 30) -> d2' = day end_date)
    /\ Thirty360US.year_fraction start_date end_date
       = truediv_int_float
           (360 * (year end_date - year start_date)
            + 30 * (month end_date - month start_date) + (d2' - d1'))
           360%float.
Proof.
  unfold Thirty360US.year_fraction. cbv zeta.
  set (d1' := if day start_date =? 31 then 30 else day start_date).
  set (d2' := if (day end_date =? 31) && (d1' =? 30) then 30 else day end_date).
  exists d1', d2'. subst d2' d1'.
  destruct (Z.eqb_spec (day start_date) 31) as [Hs | Hs].
  - change (30 =? 30) with true. rewrite andb_true_r.
    destruct (Z.eqb_spec (day end_date) 31); repeat split; intros; try tauto; lia.
  - destruct (Z.eqb_spec (day end_date) 31), (Z.eqb_spec (day start_date) 30);
      cbn [andb]; repeat split; intros; try tauto; lia.
Qed.

(** C5: [ActualActual.year_fraction] divides the day difference by the length
    of the start date's calendar year, 366 when that year is divisible by 4
    and (not by 100 or by 400) and 365 otherwise, whatever the end date: 366
    for the start years 2000 and 2024, 365 for 1900 and 2023. *)
Theorem ActualActual_divides_by_start_year (start_date end_date : date) :
  let leap := (year start_date mod 4 =? 0)
              && (negb (year start_date mod 100 =? 0)
                  || (year start_date mod 400 =? 0)) in
  let year_length := if leap then 366 else 365 in
  ActualActual.year_fraction start_date end_date
  = truediv_int_int (days_between end_date start_date) year_length
  /\ year_length
     = toordinal (mkdate (year start_date + 1) 1 1)
       - toordinal (mkdate (year start_date) 1 1)
  /\ (forall m d e,
        ActualActual.year_fraction (mkdate 2000 m d) e
        = truediv_int_int (days_between e (mkdate 2000 m d)) 366
        /\ ActualActual.year_fraction (mkdate 2024 m d) e
           = truediv_int_int (days_between e (mkdate 2024 m d)) 366
        /\ ActualActual.year_fraction (mkdate 1900 m d) e
           = truediv_int_int (days_between e (mkdate 1900 m d)) 365
        /\ ActualActual.year_fraction (mkdate 2023 m d) e
           = truediv_int_int (days_between e (mkdate 2023 m d)) 365).
Proof.
  cbv zeta. split; [reflexivity |]. split.
  - unfold toordinal, _ymd2ord, _days_before_month. cbn [year month day].
    rewrite days_before_year_succ. unfold _is_leap. month_tables.
    change (2 <? 1) with false. cbn [andb]. lia.
  - intros m d e. repeat split.
Qed.

(** C8: for each of the six conventions and every date [d],
    [year_fraction(d, d)] is [0.0]. *)
Theorem year_fraction_same_date (convention : DayCountConvention) (d : date) :
  year_fraction convention d d = 0%float.
Proof.
  destruct convention; cbn [year_fraction];
    unfold Actual360.year_fraction, Actual365.year_fraction,
      ActualActual.year_fraction, Thirty360.year_fraction,
      Thirty360US.year_fraction, Thirty360EU.year_fraction, days_between;
    cbv zeta; rewrite ?Z.sub_diag, ?min_30_not_31;
    try reflexivity.
  - destruct ((year d mod 4 =? 0) && (negb (year d mod 100 =? 0) || (year d mod 400 =? 0)));
      reflexivity.
  - destruct (Z.eqb_spec (day d) 31) as [Hd | Hd]; cbn [andb];
      rewrite ?Z.sub_diag; reflexivity.
Qed.

(** C9: for Actual360 and Actual365 and every pair of dates,
    [year_fraction(d1, d2) == -year_fraction(d2, d1)]: the day difference
    changes sign when the two dates are swapped. *)
Theorem actual_year_fraction_antisymmetric (d1 d2 : date) :
  days_between d2 d1 = - days_between d1 d2
  /\ float_eq (Actual360.year_fraction d1 d2) (- Actual360.year_fraction d2 d1)
  /\ float_eq (Actual365.year_fraction d1 d2) (- Actual365.year_fraction d2 d1).
Proof.
  assert (Hswap : days_between d2 d1 = - days_between d1 d2)
    by (unfold days_between; lia).
  split; [exact Hswap |].
  unfold Actual360.year_fraction, Actual365.year_fraction. cbv zeta.
  rewrite Hswap.
  split; apply truediv_opp; [apply finite_positive_360 | apply finite_positive_365].
Qed.

Lemma valid_date_day_le_31 (d : date) : valid_date d = true -> 1 <= day d <= 31.
Proof.
  rewrite valid_date_spec. intros (_ & Hm & Hd). revert Hd. unfold _days_in_month.
  assert (Hcases : month d = 1 \/ month d = 2 \/ month d = 3 \/ month d = 4
                   \/ month d = 5 \/ month d = 6 \/ month d = 7 \/ month d = 8
                   \/ month d = 9 \/ month d = 10 \/ month d = 11 \/ month d = 12) by lia.
  repeat (destruct Hcases as [-> | Hcases]); try rewrite Hcases;
    destruct (_is_leap (year d)); month_tables; lia.
Qed.

(** C2, as stated, fails: no pair of valid dates with start day 31 (indeed no
    pair at all) makes the three 30/360 variants pairwise different, since
    [Thirty360] and [Thirty360EU] always agree. *)
Lemma Thirty360_variants_never_pairwise_different :
  ~ exists start_date end_date : date,
      valid_date start_date = true /\ valid_date end_date = true
      /\ day start_date = 31
      /\ ~ float_eq (Thirty360.year_fraction start_date end_date)
                    (Thirty360US.year_fraction start_date end_date)
      /\ ~ float_eq (Thirty360US.year_fraction start_date end_date)
                    (Thirty360EU.year_fraction start_date end_date)
      /\ ~ float_eq (Thirty360.year_fraction start_date end_date)
                    (Thirty360EU.year_fraction start_date end_date).
Proof.
  intros (s & e & _ & _ & _ & _ & _ & Hne). apply Hne.
  rewrite Thirty360EU_is_Thirty360.
  apply float_eq_refl, (year_fraction_not_nan THIRTY_360).
Qed.

Lemma all_pos_shallower (P : positive -> bool) (depth : nat) (p : positive) :
  all_pos (S depth) p P = true -> all_pos depth p P = true.
Proof.
  revert p. induction depth as [| depth IH]; intros p H.
  - cbn [all_pos] in *. apply andb_true_iff in H. destruct H as [H _].
    rewrite H. reflexivity.
  - change (P p && (all_pos (S depth) (xO p) P && all_pos (S depth) (xI p) P) = true)
      in H.
    apply andb_true_iff in H. destruct H as [Hp H].
    apply andb_true_iff in H. destruct H as [H0 H1].
    change (P p && (all_pos depth (xO p) P && all_pos depth (xI p) P) = true).
    rewrite Hp, (IH _ H0), (IH _ H1). reflexivity.
Qed.

Lemma all_pos_shallow (P : positive -> bool) (k depth : nat) (p : positive) :
  all_pos (k + depth) p P = true -> all_pos depth p P = true.
Proof.
  induction k as [| k IH]; intros H; [exact H |].
  apply IH, all_pos_shallower. exact H.
Qed.

(** [all_pos depth 1 P] covers the positive numbers below [2 ^ (depth + 1)]. *)
Lemma all_pos_covers (P : positive -> bool) (q : positive) :
  forall k depth : nat,
    Zpos q < 2 ^ Z.of_nat (S k) ->
    all_pos (k + depth) 1 P = true -> all_pos depth q P = true.
Proof.
  induction q as [q IH | q IH |]; intros k depth Hq H.
  - destruct k as [| k]; [change (2 ^ Z.of_nat 1) with 2 in Hq; lia |].
    assert (Hq' : Zpos q < 2 ^ Z.of_nat (S k)).
    { rewrite (Nat2Z.inj_succ (S k)), Z.pow_succ_r in Hq by lia. lia. }
    specialize (IH k (S depth) Hq').
    replace (k + S depth)%nat with (S k + depth)%nat in IH by lia.
    specialize (IH H). cbn [all_pos] in IH.
    apply andb_true_iff in IH. destruct IH as [_ IH].
    apply andb_true_iff in IH. apply IH.
  - destruct k as [| k]; [change (2 ^ Z.of_nat 1) with 2 in Hq; lia |].
    assert (Hq' : Zpos q < 2 ^ Z.of_nat (S k)).
    { rewrite (Nat2Z.inj_succ (S k)), Z.pow_succ_r in Hq by lia. lia. }
    specialize (IH k (S depth) Hq').
    replace (k + S depth)%nat with (S k + depth)%nat in IH by lia.
    specialize (IH H). cbn [all_pos] in IH.
    apply andb_true_iff in IH. destruct IH as [_ IH].
    apply andb_true_iff in IH. apply IH.
  - apply (all_pos_shallow P k depth 1 H).
Qed.

(** Checked by computing the 2^22 pairs of quotients. *)
Lemma quotients_differ_checked : all_pos 21 1 quotients_differ = true.
Proof. vm_compute. reflexivity. Qed.

Lemma quotients_differ_below (p : positive) :
  Zpos p < 4194304 -> quotients_differ p = true.
Proof.
  intros Hp.
  pose proof (all_pos_covers quotients_differ p 21 0 Hp quotients_differ_checked) as H.
  cbn [all_pos] in H. rewrite andb_true_r in H. exact H.
Qed.

Lemma SFeqb_opp (x y : spec_float) : SFeqb (SFopp x) (SFopp y) = SFeqb x y.
Proof.
  unfold SFeqb.
  destruct x as [sx | sx | | sx mx ex], y as [sy | sy | | sy my ey];
    cbn [SFopp SFcompare]; try reflexivity;
    try (destruct sx; reflexivity); try (destruct sy; reflexivity);
    try (destruct sx, sy; reflexivity).
  destruct sx, sy; cbn [negb]; try reflexivity;
    destruct (ex ?= ey); try reflexivity;
    destruct (Pos.compare_cont Eq mx my); reflexivity.
Qed.

(** Numerators one apart, as far as dates take them, give year fractions that
    differ. *)
Lemma truediv_next_differs (n : Z) :
  -4194304 < n < 4194303 ->
  ~ float_eq (truediv_int_float n 360) (truediv_int_float (n + 1) 360)
  /\ ~ float_eq (truediv_int_float (n + 1) 360) (truediv_int_float n 360).
Proof.
  intros Hn. unfold float_eq.
  assert (Hpos : forall p, Zpos p < 4194304 ->
             (truediv_int_float (Zpos p) 360 =? truediv_int_float (Zpos p + 1) 360)%float
             = false
             /\ (truediv_int_float (Zpos p + 1) 360 =? truediv_int_float (Zpos p) 360)%float
                = false).
  { intros p Hp. pose proof (quotients_differ_below p Hp) as H.
    unfold quotients_differ in H. cbv zeta in H. apply andb_true_iff in H.
    rewrite !negb_true_iff in H. exact H. }
  destruct n as [| p | p].
  - split; vm_compute; discriminate.
  - destruct (Hpos p ltac:(lia)) as [H1 H2]. rewrite H1, H2. split; discriminate.
  - destruct (Pos.eq_dec p 1%positive) as [-> | Hp]; [split; vm_compute; discriminate |].
    assert (Hpred : Zneg p + 1 = Zneg (Pos.pred p)) by lia.
    assert (Hsucc : Zpos p = Zpos (Pos.pred p) + 1) by lia.
    destruct (Hpos (Pos.pred p) ltac:(lia)) as [H1 H2].
    rewrite <- Hsucc in H1, H2. rewrite Hpred.
    unfold truediv_int_float in *. cbn [float_of_int] in *.
    rewrite !(div_opp_l _ 360%float finite_positive_360).
    rewrite !FloatAxioms.eqb_spec, !opp_spec, !SFeqb_opp, <- !FloatAxioms.eqb_spec.
    rewrite H1, H2. split; discriminate.
Qed.

(** The 30/360 numerator of two valid dates, whatever the clamped days. *)
Lemma thirty360_numerator_bound (s e : date) (d1 d2 : Z) :
  valid_date s = true -> valid_date e = true ->
  1 <= d1 <= 31 -> 1 <= d2 <= 31 ->
  -4194304 < 360 * (year e - year s) + 30 * (month e - month s) + (d2 - d1)
           < 4194302.
Proof.
  intros Hs He Hd1 Hd2. apply valid_date_spec in Hs, He. lia.
Qed.

(** With an end day 31 and a start day below 30, [Thirty360US] keeps the 31
    that the other two variants clamp, and its year fraction differs. *)
Lemma Thirty360US_differs (s e : date) :
  valid_date s = true -> valid_date e = true ->
  day e = 31 -> day s < 30 ->
  ~ float_eq (Thirty360.year_fraction s e) (Thirty360US.year_fraction s e)
  /\ ~ float_eq (Thirty360US.year_fraction s e) (Thirty360.year_fraction s e).
Proof.
  intros Hs He H31 H30.
  pose proof (valid_date_day_le_31 s Hs) as Hds.
  pose proof (thirty360_numerator_bound s e (day s) 30 Hs He ltac:(lia) ltac:(lia))
    as Hbound.
  unfold Thirty360.year_fraction, Thirty360US.year_fraction. cbv zeta.
  rewrite H31.
  destruct (Z.eqb_spec (day s) 31) as [Hx | _]; [lia |].
  destruct (Z.eqb_spec (day s) 30) as [Hx | _]; [lia |].
  change (31 =? 31) with true. cbn [andb].
  rewrite (Z.min_l (day s) 30) by lia. change (Z.min 31 30) with 30.
  replace (360 * (year e - year s) + 30 * (month e - month s) + (31 - day s))
    with (360 * (year e - year s) + 30 * (month e - month s) + (30 - day s) + 1)
    by lia.
  apply truediv_next_differs. lia.
Qed.

(** C2, amended: the three 30/360 variants return different year fractions
    only when at least one endpoint's day is 31; [Thirty360] and
    [Thirty360EU] agree on every pair, and on a pair whose start day is 31 all
    three agree; [Thirty360US] differs from the other two on every pair of
    valid dates whose end day is 31 and whose start day is below 30, for
    instance on (2023-01-15, 2023-01-31). *)
Theorem Thirty360_variants_differ_only_on_31 :
  (forall start_date end_date : date,
      valid_date start_date = true -> valid_date end_date = true ->
      (~ float_eq (Thirty360.year_fraction start_date end_date)
                  (Thirty360US.year_fraction start_date end_date)
       \/ ~ float_eq (Thirty360US.year_fraction start_date end_date)
                     (Thirty360EU.year_fraction start_date end_date)
       \/ ~ float_eq (Thirty360.year_fraction start_date end_date)
                     (Thirty360EU.year_fraction start_date end_date) ->
       day start_date = 31 \/ day end_date = 31)
      /\ float_eq (Thirty360.year_fraction start_date end_date)
                  (Thirty360EU.year_fraction start_date end_date)
      /\ (day start_date = 31 ->
          float_eq (Thirty360.year_fraction start_date end_date)
                   (Thirty360US.year_fraction start_date end_date)
          /\ float_eq (Thirty360US.year_fraction start_date end_date)
                      (Thirty360EU.year_fraction start_date end_date))
      /\ (day end_date = 31 -> day start_date < 30 ->
          ~ float_eq (Thirty360.year_fraction start_date end_date)
                     (Thirty360US.year_fraction start_date end_date)
          /\ ~ float_eq (Thirty360US.year_fraction start_date end_date)
                        (Thirty360EU.year_fraction start_date end_date)))
  /\ ~ float_eq (Thirty360.year_fraction (mkdate 2023 1 15) (mkdate 2023 1 31))
                (Thirty360US.year_fraction (mkdate 2023 1 15) (mkdate 2023 1 31))
  /\ ~ float_eq (Thirty360US.year_fraction (mkdate 2023 1 15) (mkdate 2023 1 31))
                (Thirty360EU.year_fraction (mkdate 2023 1 15) (mkdate 2023 1 31)).
Proof.
  split; [| split; vm_compute; discriminate].
  intros s e Hs He.
  pose proof (valid_date_day_le_31 s Hs) as Hds.
  pose proof (valid_date_day_le_31 e He) as Hde.
  assert (Hrefl : float_eq (Thirty360.year_fraction s e) (Thirty360.year_fraction s e))
    by apply float_eq_refl, (year_fraction_not_nan THIRTY_360).
  rewrite Thirty360EU_is_Thirty360.
  split; [| split; [exact Hrefl | split]].
  - intros Hdiff.
    destruct (Z.eq_dec (day s) 31) as [H31 | Hs31]; [left; exact H31 |].
    destruct (Z.eq_dec (day e) 31) as [H31 | He31]; [right; exact H31 |].
    exfalso. rewrite Thirty360US_is_Thirty360 in Hdiff by lia. tauto.
  - intros H31. rewrite Thirty360US_is_Thirty360 by lia. split; exact Hrefl.
  - intros H31 H30. apply Thirty360US_differs; assumption.
Qed.

Lemma Thirty360_variants_differ_only_on_31_witness :
  day (mkdate 2023 1 15) = 31 \/ day (mkdate 2023 1 31) = 31.
Proof.
  apply (proj1 Thirty360_variants_differ_only_on_31 (mkdate 2023 1 15) (mkdate 2023 1 31));
    [reflexivity | reflexivity |].
  left. vm_compute. discriminate.
Defined.

(** ** Roll conventions *)

Section Roll.

Variable holidays : gset date.

Lemma forward_walk_ends (fuel : nat) (d : date) (res : result date) :
  valid_date d = true ->
  while_not_business_day (fun date => add_days date 1) holidays d fuel = Some res ->
  match res with
  | Ok r =>
      valid_date r = true
      /\ date_utils.is_business_day r holidays = true
      /\ toordinal d <= toordinal r
      /\ forall b, valid_date b = true -> toordinal d <= toordinal b < toordinal r ->
                   date_utils.is_business_day b holidays = false
  | Raise e =>
      e = OverflowError
      /\ forall b, valid_date b = true -> toordinal d <= toordinal b ->
                   date_utils.is_business_day b holidays = false
  end.
Proof.
  intros Hd Hrun.
  pose proof (walk_ends holidays 1 fuel d res (or_introl eq_refl) Hd Hrun) as H.
  destruct res as [r | e].
  - destruct H as (Hr & Hb & Hdir & Hfirst). repeat split; try assumption; [lia |].
    intros b Hvb Hrange. apply Hfirst; [exact Hvb | lia].
  - destruct H as (He & Hnone). split; [exact He |].
    intros b Hvb Hrange. apply Hnone; [exact Hvb | lia].
Qed.

Lemma backward_walk_ends (fuel : nat) (d : date) (res : result date) :
  valid_date d = true ->
  while_not_business_day (fun date => sub_days date 1) holidays d fuel = Some res ->
  match res with
  | Ok r =>
      valid_date r = true
      /\ date_utils.is_business_day r holidays = true
      /\ toordinal r <= toordinal d
      /\ forall b, valid_date b = true -> toordinal r < toordinal b <= toordinal d ->
                   date_utils.is_business_day b holidays = false
  | Raise e =>
      e = OverflowError
      /\ forall b, valid_date b = true -> toordinal b <= toordinal d ->
                   date_utils.is_business_day b holidays = false
  end.
Proof.
  intros Hd Hrun.
  pose proof (walk_ends holidays (-1) fuel d res (or_intror eq_refl) Hd Hrun) as H.
  destruct res as [r | e].
  - destruct H as (Hr & Hb & Hdir & Hfirst). repeat split; try assumption; [lia |].
    intros b Hvb Hrange. apply Hfirst; [exact Hvb | lia].
  - destruct H as (He & Hnone). split; [exact He |].
    intros b Hvb Hrange. apply Hnone; [exact Hvb | lia].
Qed.

Lemma forward_walk_total (d : date) :
  valid_date d = true ->
  exists fuel res,
    while_not_business_day (fun date => add_days date 1) holidays d fuel = Some res.
Proof.
  intros Hd. exists (S (Z.to_nat (_MAXORDINAL - toordinal d))).
  refine (walk_total holidays 1 _ d (or_introl eq_refl) Hd _).
  change (1 =? 1) with true. cbv iota.
  pose proof (toordinal_range d Hd). lia.
Qed.

Lemma backward_walk_total (d : date) :
  valid_date d = true ->
  exists fuel res,
    while_not_business_day (fun date => sub_days date 1) holidays d fuel = Some res.
Proof.
  intros Hd. exists (S (Z.to_nat (toordinal d - 1))).
  refine (walk_total holidays (-1) _ d (or_intror eq_refl) Hd _).
  change (-1 =? 1) with false. cbv iota.
  pose proof (toordinal_range d Hd). lia.
Qed.

End Roll.

(** C10: a date that is already a business day (weekday below 5 and not a
    holiday) is returned unchanged by [Following.adjustDay] and by
    [Preceding.adjustDay]. *)
Theorem business_day_unchanged (date : date) (holidays : gset datetime.date) :
  weekday date < 5 -> date ∉ holidays ->
  Following.adjustDay date holidays ~~> Ok date
  /\ Preceding.adjustDay date holidays ~~> Ok date.
Proof.
  intros Hweek Hholiday.
  assert (Hb : date_utils.is_business_day date holidays = true).
  { unfold date_utils.is_business_day. apply andb_true_iff. split.
    - apply Z.ltb_lt, Hweek.
    - apply negb_true_iff, bool_decide_eq_false_2, Hholiday. }
  split; exists 1%nat; unfold Following.adjustDay, Preceding.adjustDay;
    cbn [while_not_business_day]; rewrite Hb; reflexivity.
Qed.

Lemma business_day_unchanged_witness :
  Following.adjustDay (mkdate 2024 1 1) ∅ ~~> Ok (mkdate 2024 1 1)
  /\ Preceding.adjustDay (mkdate 2024 1 1) ∅ ~~> Ok (mkdate 2024 1 1).
Proof.
  apply business_day_unchanged.
  - vm_compute. reflexivity.
  - apply not_elem_of_empty.
Defined.

(** The outcome of a walk does not depend on the fuel that lets it end. *)
Lemma while_deterministic (step : date -> result date) (h : gset date) (d : date)
  (fuel fuel' : nat) (res res' : result date) :
  while_not_business_day step h d fuel = Some res ->
  while_not_business_day step h d fuel' = Some res' ->
  res = res'.
Proof.
  intros Hrun Hrun'.
  pose proof (while_fuel_mono h step fuel (Nat.max fuel fuel') d res Hrun ltac:(lia)) as H.
  pose proof (while_fuel_mono h step fuel' (Nat.max fuel fuel') d res' Hrun' ltac:(lia))
    as H'.
  congruence.
Qed.

Lemma ModifiedFollowing_fuel_mono (h : gset date) (d : date) (fuel fuel' : nat)
  (res : result date) :
  ModifiedFollowing.adjustDay d h fuel = Some res ->
  (fuel <= fuel')%nat ->
  ModifiedFollowing.adjustDay d h fuel' = Some res.
Proof.
  unfold ModifiedFollowing.adjustDay. cbv zeta. intros Hrun Hle.
  destruct (while_not_business_day (fun date => add_days date 1) h d fuel)
    as [fres |] eqn:Hfwd; [| discriminate].
  rewrite (while_fuel_mono h _ fuel fuel' d fres Hfwd Hle).
  destruct fres as [f | e]; cbn [bind] in *; [| exact Hrun].
  destruct (negb (month f =? month d)); [| exact Hrun].
  destruct (sub_days f 1) as [g | e]; cbn [bind] in *; [| exact Hrun].
  apply (while_fuel_mono h _ fuel fuel' g res Hrun Hle).
Qed.

Lemma ModifiedFollowing_deterministic (h : gset date) (d : date)
  (res res' : result date) :
  ModifiedFollowing.adjustDay d h ~~> res ->
  ModifiedFollowing.adjustDay d h ~~> res' ->
  res = res'.
Proof.
  intros [fuel Hrun] [fuel' Hrun'].
  pose proof (ModifiedFollowing_fuel_mono h d fuel (Nat.max fuel fuel') res Hrun
                ltac:(lia)) as H.
  pose proof (ModifiedFollowing_fuel_mono h d fuel' (Nat.max fuel fuel') res' Hrun'
                ltac:(lia)) as H'.
  congruence.
Qed.

(** C1: the outcome of [ModifiedFollowing.adjustDay] is the one, and the only
    one, that two walks give: first the forward walk of
    [Following.adjustDay]; when the date it finds is in the month of the
    input that date is returned, and otherwise the backward walk of
    [Preceding.adjustDay] is run from the day before the date found (not from
    the input) and its outcome is the outcome; an exception of a walk or of
    the step back is the outcome as well.  For 2023-12-31, a Sunday, and no
    holidays, [Following] returns 2024-01-01 and [ModifiedFollowing]
    2023-12-29, and nothing else. *)
Theorem ModifiedFollowing_walks_back :
  (forall (date : date) (holidays : gset datetime.date) (res : result datetime.date),
      ModifiedFollowing.adjustDay date holidays ~~> res <->
      (exists e : exn,
          Following.adjustDay date holidays ~~> Raise e /\ res = Raise e)
      \/ (exists adjusted : datetime.date,
             Following.adjustDay date holidays ~~> Ok adjusted
             /\ ((month adjusted = month date /\ res = Ok adjusted)
                 \/ (month adjusted <> month date
                     /\ ((exists e : exn,
                             sub_days adjusted 1 = Raise e /\ res = Raise e)
                         \/ (exists before : datetime.date,
                                sub_days adjusted 1 = Ok before
                                /\ Preceding.adjustDay before holidays ~~> res))))))
  /\ (forall (date : date) (holidays : gset datetime.date)
             (res res' : result datetime.date),
        ModifiedFollowing.adjustDay date holidays ~~> res ->
        ModifiedFollowing.adjustDay date holidays ~~> res' ->
        res = res')
  /\ weekday (mkdate 2023 12 31) = 6
  /\ (forall res : result datetime.date,
        Following.adjustDay (mkdate 2023 12 31) ∅ ~~> res
        <-> res = Ok (mkdate 2024 1 1))
  /\ (forall res : result datetime.date,
        ModifiedFollowing.adjustDay (mkdate 2023 12 31) ∅ ~~> res
        <-> res = Ok (mkdate 2023 12 29)).
Proof.
  split; [| split; [| split; [reflexivity | split]]].
  - intros d h res. split.
    + intros [fuel Hrun]. unfold ModifiedFollowing.adjustDay in Hrun. cbv zeta in Hrun.
      destruct (while_not_business_day (fun date => add_days date 1) h d fuel)
        as [[f | e] |] eqn:Hfwd; cbn [bind] in Hrun; [| | discriminate].
      * right. exists f. split; [exists fuel; exact Hfwd |].
        destruct (Z.eqb_spec (month f) (month d)) as [Hmonth | Hmonth];
          cbn [negb] in Hrun.
        { left. split; [exact Hmonth | congruence]. }
        right. split; [exact Hmonth |].
        destruct (sub_days f 1) as [g | e]; cbn [bind] in Hrun.
        { right. exists g. split; [reflexivity | exists fuel; exact Hrun]. }
        left. exists e. split; [reflexivity | congruence].
      * left. exists e. split; [exists fuel; exact Hfwd | congruence].
    + intros [(e & [fuel Hfwd] & ->)
             | (f & [fuel Hfwd] & [[Hmonth ->] | [Hmonth Hback]])];
        unfold Following.adjustDay in Hfwd.
      * exists fuel. unfold ModifiedFollowing.adjustDay. rewrite Hfwd. reflexivity.
      * exists fuel. unfold ModifiedFollowing.adjustDay. rewrite Hfwd. cbn [bind].
        apply Z.eqb_eq in Hmonth. rewrite Hmonth. reflexivity.
      * apply Z.eqb_neq in Hmonth.
        destruct Hback as [(e & Hstep & ->) | (g & Hstep & [fuel' Hbwd])].
        { exists fuel. unfold ModifiedFollowing.adjustDay. rewrite Hfwd. cbn [bind].
          rewrite Hmonth, Hstep. reflexivity. }
        unfold Preceding.adjustDay in Hbwd.
        exists (Nat.max fuel fuel'). unfold ModifiedFollowing.adjustDay.
        rewrite (while_fuel_mono h _ fuel (Nat.max fuel fuel') d (Ok f) Hfwd) by lia.
        cbn [bind]. rewrite Hmonth, Hstep. cbn [negb bind].
        apply (while_fuel_mono h _ fuel' (Nat.max fuel fuel') g res Hbwd). lia.
  - intros d h res res'. apply ModifiedFollowing_deterministic.
  - intros res. split.
    + intros [fuel Hrun].
      apply (while_deterministic _ ∅ (mkdate 2023 12 31) fuel 2 _ _ Hrun).
      vm_compute. reflexivity.
    + intros ->. exists 2%nat. vm_compute. reflexivity.
  - intros res. split.
    + intros Hrun.
      apply (ModifiedFollowing_deterministic ∅ (mkdate 2023 12 31) _ _ Hrun).
      exists 3%nat. vm_compute. reflexivity.
    + intros ->. exists 3%nat. vm_compute. reflexivity.
Qed.

Lemma ModifiedFollowing_walks_back_witness :
  ModifiedFollowing.adjustDay (mkdate 2023 12 31) ∅ ~~> Ok (mkdate 2023 12 29).
Proof.
  apply (proj1 ModifiedFollowing_walks_back).
  right. exists (mkdate 2024 1 1). split; [exists 2%nat; vm_compute; reflexivity |].
  right. split; [vm_compute; discriminate |].
  right. exists (mkdate 2023 12 31). split; [vm_compute; reflexivity |].
  exists 3%nat. vm_compute. reflexivity.
Defined.

(** With [date.max] a holiday no day from [date.max] on is a business day,
    and with [date.min] a holiday no day up to [date.min] is. *)
Lemma no_business_day_from_date_max (b : date) :
  valid_date b = true ->
  toordinal (mkdate 9999 12 31) <= toordinal b ->
  date_utils.is_business_day b {[ mkdate 9999 12 31 ]} = false.
Proof.
  intros Hb Hord. pose proof (toordinal_range b Hb) as Hrange.
  rewrite (toordinal_inj b (mkdate 9999 12 31)).
  - vm_compute. reflexivity.
  - apply valid_date_well_formed, Hb.
  - apply valid_date_well_formed. reflexivity.
  - change (toordinal (mkdate 9999 12 31)) with _MAXORDINAL in *. lia.
Qed.

Lemma no_business_day_to_date_min (b : date) :
  valid_date b = true ->
  toordinal b <= toordinal (mkdate 1 1 1) ->
  date_utils.is_business_day b {[ mkdate 1 1 1 ]} = false.
Proof.
  intros Hb Hord. pose proof (toordinal_range b Hb) as Hrange.
  rewrite (toordinal_inj b (mkdate 1 1 1)).
  - vm_compute. reflexivity.
  - apply valid_date_well_formed, Hb.
  - apply valid_date_well_formed. reflexivity.
  - change (toordinal (mkdate 1 1 1)) with 1 in *. lia.
Qed.

(** C6, as stated, fails: at [date.max], a Friday, declared a holiday, every
    day from the input on is a non-business day, yet [Following.adjustDay]
    ends, with the [OverflowError] of the date addition; likewise
    [Preceding.adjustDay] at [date.min], a Monday. *)
Lemma walk_overflows_at_date_bounds :
  (valid_date (mkdate 9999 12 31) = true
   /\ (forall b : date, valid_date b = true ->
         toordinal (mkdate 9999 12 31) <= toordinal b ->
         date_utils.is_business_day b {[ mkdate 9999 12 31 ]} = false)
   /\ Following.adjustDay (mkdate 9999 12 31) {[ mkdate 9999 12 31 ]} 1%nat
      = Some (Raise OverflowError))
  /\ (valid_date (mkdate 1 1 1) = true
      /\ (forall b : date, valid_date b = true ->
            toordinal b <= toordinal (mkdate 1 1 1) ->
            date_utils.is_business_day b {[ mkdate 1 1 1 ]} = false)
      /\ Preceding.adjustDay (mkdate 1 1 1) {[ mkdate 1 1 1 ]} 1%nat
         = Some (Raise OverflowError)).
Proof.
  split; (split; [reflexivity | split; [| vm_compute; reflexivity]]).
  - apply no_business_day_from_date_max.
  - apply no_business_day_to_date_min.
Qed.

(** C6, amended: the walks of [Following.adjustDay] and [Preceding.adjustDay]
    have no iteration cap.  From a valid date, when some date at or after
    (at or before) the input is a business day, the walk ends and returns the
    first such day; when no date from the input to [date.max] (to
    [date.min]) is a business day, the walk ends too, by the
    [OverflowError] that the date arithmetic raises. *)
Theorem walks_end (date : date) (holidays : gset datetime.date) :
  valid_date date = true ->
  (forall b : datetime.date,
      valid_date b = true -> toordinal date <= toordinal b ->
      date_utils.is_business_day b holidays = true ->
      exists r : datetime.date,
        Following.adjustDay date holidays ~~> Ok r
        /\ date_utils.is_business_day r holidays = true
        /\ toordinal date <= toordinal r <= toordinal b
        /\ forall b' : datetime.date,
             valid_date b' = true -> toordinal date <= toordinal b' < toordinal r ->
             date_utils.is_business_day b' holidays = false)
  /\ ((forall b : datetime.date,
         valid_date b = true -> toordinal date <= toordinal b ->
         date_utils.is_business_day b holidays = false) ->
      Following.adjustDay date holidays ~~> Raise OverflowError)
  /\ (forall b : datetime.date,
        valid_date b = true -> toordinal b <= toordinal date ->
        date_utils.is_business_day b holidays = true ->
        exists r : datetime.date,
          Preceding.adjustDay date holidays ~~> Ok r
          /\ date_utils.is_business_day r holidays = true
          /\ toordinal b <= toordinal r <= toordinal date
          /\ forall b' : datetime.date,
               valid_date b' = true -> toordinal r < toordinal b' <= toordinal date ->
               date_utils.is_business_day b' holidays = false)
  /\ ((forall b : datetime.date,
         valid_date b = true -> toordinal b <= toordinal date ->
         date_utils.is_business_day b holidays = false) ->
      Preceding.adjustDay date holidays ~~> Raise OverflowError).
Proof.
  intros Hd.
  destruct (forward_walk_total holidays date Hd) as (ffuel & fres & Hfwd).
  destruct (backward_walk_total holidays date Hd) as (bfuel & bres & Hbwd).
  pose proof (forward_walk_ends holidays ffuel date fres Hd Hfwd) as Hf.
  pose proof (backward_walk_ends holidays bfuel date bres Hd Hbwd) as Hb.
  repeat split.
  - intros b Hvb Hord Hbus. destruct fres as [r | e].
    + destruct Hf as (Hr & Hrbus & Hdr & Hfirst).
      exists r. repeat split; try assumption; [exists ffuel; exact Hfwd |].
      destruct (Z.le_gt_cases (toordinal r) (toordinal b)) as [Hle | Hgt]; [exact Hle |].
      rewrite Hfirst in Hbus by (auto; lia). discriminate.
    + destruct Hf as (_ & Hnone). rewrite Hnone in Hbus by assumption. discriminate.
  - intros Hnone. destruct fres as [r | e].
    + destruct Hf as (Hr & Hrbus & Hdr & _).
      rewrite Hnone in Hrbus by assumption. discriminate.
    + destruct Hf as (-> & _). exists ffuel. exact Hfwd.
  - intros b Hvb Hord Hbus. destruct bres as [r | e].
    + destruct Hb as (Hr & Hrbus & Hdr & Hfirst).
      exists r. repeat split; try assumption; [exists bfuel; exact Hbwd |].
      destruct (Z.le_gt_cases (toordinal b) (toordinal r)) as [Hle | Hgt]; [exact Hle |].
      rewrite Hfirst in Hbus by (auto; lia). discriminate.
    + destruct Hb as (_ & Hnone). rewrite Hnone in Hbus by assumption. discriminate.
  - intros Hnone. destruct bres as [r | e].
    + destruct Hb as (Hr & Hrbus & Hdr & _).
      rewrite Hnone in Hrbus by assumption. discriminate.
    + destruct Hb as (-> & _). exists bfuel. exact Hbwd.
Qed.

Lemma walks_end_witness :
  Following.adjustDay (mkdate 9999 12 31) {[ mkdate 9999 12 31 ]} ~~> Raise OverflowError.
Proof.
  apply (walks_end (mkdate 9999 12 31) {[ mkdate 9999 12 31 ]}).
  - vm_compute. reflexivity.
  - apply no_business_day_from_date_max.
Defined.

(** Dates in ordinal order are in the order of their years. *)
Lemma toordinal_le_year (d1 d2 : date) :
  well_formed d1 -> well_formed d2 ->
  toordinal d1 <= toordinal d2 -> year d1 <= year d2.
Proof.
  intros H1 H2 Hle.
  destruct (Z.le_gt_cases (year d1) (year d2)) as [Hy | Hy]; [exact Hy |].
  pose proof (toordinal_lt_month d2 d1 H2 H1 ltac:(lia)). lia.
Qed.

Lemma toordinal_le_year_month (d1 d2 : date) :
  well_formed d1 -> well_formed d2 ->
  toordinal d1 <= toordinal d2 ->
  year d1 < year d2 \/ (year d1 = year d2 /\ month d1 <= month d2).
Proof.
  intros H1 H2 Hle.
  pose proof (toordinal_le_year d1 d2 H1 H2 Hle) as Hy.
  destruct (Z.eq_dec (year d1) (year d2)) as [Heq | Hne]; [| lia].
  right. split; [exact Heq |].
  destruct (Z.le_gt_cases (month d1) (month d2)) as [Hm | Hm]; [exact Hm |].
  pose proof (toordinal_lt_month d2 d1 H2 H1 ltac:(lia)). lia.
Qed.

(** C7, as stated, fails: with every day from 2023-01-31 to 2023-12-31 a
    holiday, the forward walk from 2023-01-31 stops on 2024-01-01, whose
    month number is that of the input, and [ModifiedFollowing.adjustDay]
    returns it: a date in a later year. *)
Lemma ModifiedFollowing_lands_in_later_year :
  valid_date (mkdate 2023 1 31) = true
  /\ ModifiedFollowing.adjustDay (mkdate 2023 1 31) holidays_of_2023 337%nat
     = Some (Ok (mkdate 2024 1 1))
  /\ year (mkdate 2023 1 31) < year (mkdate 2024 1 1)
  /\ toordinal (mkdate 2023 1 31) < toordinal (mkdate 2024 1 1).
Proof.
  split; [reflexivity |]. split; [vm_compute; reflexivity |].
  split; reflexivity.
Qed.

(** C7, amended: when [ModifiedFollowing.adjustDay] returns, from a valid date,
    either the forward walk ended on a date with the month number of the
    input, and that date, on or after the input, is returned (it is in the
    input's month unless the walk went on into a later year), or the forward
    walk ended on a date with another month number and the returned date is
    strictly before the input, hence in the input's (year, month) or an
    earlier one. *)
Theorem ModifiedFollowing_month_or_earlier
  (date : date) (holidays : gset datetime.date) (r : datetime.date) :
  valid_date date = true ->
  ModifiedFollowing.adjustDay date holidays ~~> Ok r ->
  (Following.adjustDay date holidays ~~> Ok r
   /\ month r = month date
   /\ toordinal date <= toordinal r
   /\ year date <= year r)
  \/ ((exists adjusted : datetime.date,
          Following.adjustDay date holidays ~~> Ok adjusted
          /\ month adjusted <> month date
          /\ toordinal date < toordinal adjusted)
      /\ toordinal r < toordinal date
      /\ (year r < year date \/ (year r = year date /\ month r <= month date))).
Proof.
  intros Hd [fuel Hrun]. unfold ModifiedFollowing.adjustDay in Hrun. cbv zeta in Hrun.
  destruct (while_not_business_day (fun date => add_days date 1) holidays date fuel)
    as [[f | e] |] eqn:Hfwd; cbn [bind] in Hrun; try discriminate.
  pose proof (forward_walk_ends holidays fuel date (Ok f) Hd Hfwd)
    as (Hf & Hfbus & Hdf & Hfirst).
  pose proof (valid_date_well_formed date Hd) as Hwd.
  destruct (Z.eqb_spec (month f) (month date)) as [Hmonth | Hmonth];
    cbn [negb] in Hrun.
  - injection Hrun as <-. left. repeat split; try assumption.
    + exists fuel. exact Hfwd.
    + apply toordinal_le_year; auto using valid_date_well_formed.
  - destruct (sub_days f 1) as [g | e] eqn:Hstep; cbn [bind] in Hrun; try discriminate.
    apply add_days_Ok in Hstep. destruct Hstep as (Hg & Hgord & _).
    pose proof (backward_walk_ends holidays fuel g (Ok r) Hg Hrun)
      as (Hr & Hrbus & Hrg & _).
    assert (Hne : toordinal date <> toordinal f).
    { intros Heq. apply Hmonth. f_equal. symmetry.
      apply toordinal_inj; auto using valid_date_well_formed. }
    assert (Hlt : toordinal r < toordinal date).
    { destruct (Z.lt_ge_cases (toordinal r) (toordinal date)) as [Hlt | Hge];
        [exact Hlt |].
      rewrite Hfirst in Hrbus by (auto; lia). discriminate. }
    right. split; [| split; [exact Hlt |]].
    + exists f. split; [exists fuel; exact Hfwd |]. split; [exact Hmonth | lia].
    + apply toordinal_le_year_month; auto using valid_date_well_formed. lia.
Qed.

Lemma ModifiedFollowing_month_or_earlier_witness :
  (Following.adjustDay (mkdate 2023 12 31) ∅ ~~> Ok (mkdate 2023 12 29)
   /\ month (mkdate 2023 12 29) = month (mkdate 2023 12 31)
   /\ toordinal (mkdate 2023 12 31) <= toordinal (mkdate 2023 12 29)
   /\ year (mkdate 2023 12 31) <= year (mkdate 2023 12 29))
  \/ ((exists adjusted : datetime.date,
          Following.adjustDay (mkdate 2023 12 31) ∅ ~~> Ok adjusted
          /\ month adjusted <> month (mkdate 2023 12 31)
          /\ toordinal (mkdate 2023 12 31) < toordinal adjusted)
      /\ toordinal (mkdate 2023 12 29) < toordinal (mkdate 2023 12 31)
      /\ (year (mkdate 2023 12 29) < year (mkdate 2023 12 31)
          \/ (year (mkdate 2023 12 29) = year (mkdate 2023 12 31)
              /\ month (mkdate 2023 12 29) <= month (mkdate 2023 12 31)))).
Proof.
  apply (ModifiedFollowing_month_or_earlier (mkdate 2023 12 31) ∅ (mkdate 2023 12 29)).
  - vm_compute. reflexivity.
  - exists 3%nat. vm_compute. reflexivity.
Defined.

(** ** Month ends *)

Section MonthEnd.

Lemma fromordinal_unique (d : date) (n : Z) :
  well_formed d -> toordinal d = n -> fromordinal n = d.
Proof. intros Hd <-. apply fromordinal_toordinal, Hd. Qed.

Lemma days_in_month_bounds (y m : Z) :
  1 <= m <= 12 -> 28 <= _days_in_month y m <= 31.
Proof.
  intros Hm. unfold _days_in_month.
  assert (Hcases : m = 1 \/ m = 2 \/ m = 3 \/ m = 4 \/ m = 5 \/ m = 6 \/ m = 7
                   \/ m = 8 \/ m = 9 \/ m = 10 \/ m = 11 \/ m = 12) by lia.
  repeat (destruct Hcases as [-> | Hcases]); [.. | subst m];
    destruct (_is_leap y); month_tables; lia.
Qed.

(** The months follow each other without a gap. *)
Lemma toordinal_next_month_start (y m : Z) :
  1 <= m <= 12 ->
  toordinal (next_month_start y m) = toordinal (mkdate y m 1) + _days_in_month y m.
Proof.
  intros Hm. unfold next_month_start, toordinal, _ymd2ord, _days_in_month,
    _days_before_month.
  assert (Hcases : m = 1 \/ m = 2 \/ m = 3 \/ m = 4 \/ m = 5 \/ m = 6 \/ m = 7
                   \/ m = 8 \/ m = 9 \/ m = 10 \/ m = 11 \/ m = 12) by lia.
  repeat (destruct Hcases as [-> | Hcases]); [.. | subst m];
    month_tables; cbn [year month day];
    repeat match goal with
      | |- context [Zpos ?p + 1] =>
          let v := eval vm_compute in (Zpos p + 1) in change (Zpos p + 1) with v
      end;
    month_tables; try change (2 <? 1) with false; cbn [andb];
    try rewrite days_before_year_succ;
    destruct (_is_leap y); try lia.
Qed.

Lemma next_month_start_well_formed (y m : Z) :
  1 <= m <= 12 -> well_formed (next_month_start y m).
Proof.
  intros Hm. unfold next_month_start, well_formed.
  destruct (Z.eqb_spec m 12); cbn [year month day].
  - pose proof (days_in_month_bounds (y + 1) 1 ltac:(lia)). lia.
  - pose proof (days_in_month_bounds y (m + 1) ltac:(lia)). lia.
Qed.

Lemma next_month_start_month (y m : Z) :
  1 <= m <= 12 -> month (next_month_start y m) <> m.
Proof.
  intros Hm. unfold next_month_start.
  destruct (Z.eqb_spec m 12); cbn [month]; lia.
Qed.

(** Adding days gives the valid date at that distance, when there is one. *)
Lemma add_days_exact (d d' : date) (k : Z) :
  valid_date d' = true -> toordinal d' = toordinal d + k -> add_days d k = Ok d'.
Proof.
  intros Hd' Hord. pose proof (toordinal_range d' Hd') as Hrange.
  unfold add_days. rewrite <- Hord.
  destruct (Z.ltb_spec 0 (toordinal d')); [| lia].
  destruct (Z.leb_spec (toordinal d') _MAXORDINAL); [| lia].
  cbn [andb]. f_equal. apply fromordinal_toordinal, valid_date_well_formed, Hd'.
Qed.

Lemma add_days_overflow (d : date) (k : Z) :
  _MAXORDINAL < toordinal d + k \/ toordinal d + k < 1 ->
  add_days d k = Raise OverflowError.
Proof.
  intros Hout. unfold add_days.
  destruct (Z.ltb_spec 0 (toordinal d + k)), (Z.leb_spec (toordinal d + k) _MAXORDINAL);
    cbn [andb]; try reflexivity; lia.
Qed.

Lemma add_days_in_month (d : date) (k : Z) :
  valid_date d = true ->
  1 <= day d + k <= _days_in_month (year d) (month d) ->
  add_days d k = Ok (mkdate (year d) (month d) (day d + k)).
Proof.
  intros Hd Hk. apply add_days_exact.
  - apply valid_date_spec in Hd. apply valid_date_spec. cbn [year month day]. lia.
  - unfold toordinal, _ymd2ord. cbn [year month day]. lia.
Qed.

Lemma date_max_unique (d : date) :
  valid_date d = true -> toordinal d = _MAXORDINAL -> d = mkdate 9999 12 31.
Proof.
  intros Hd Hord. apply toordinal_inj.
  - apply valid_date_well_formed, Hd.
  - apply valid_date_well_formed. reflexivity.
  - exact Hord.
Qed.

Lemma next_month_start_valid (y m : Z) :
  1 <= y <= 9999 -> 1 <= m <= 12 -> ~ (y = 9999 /\ m = 12) ->
  valid_date (next_month_start y m) = true.
Proof.
  intros Hy Hm Hlast. pose proof (next_month_start_well_formed y m Hm) as [Hwm Hwd].
  apply valid_date_spec. revert Hwm Hwd. unfold next_month_start.
  destruct (Z.eqb_spec m 12); cbn [year month day]; lia.
Qed.

(** The day after the last day of a month is the first day of the next. *)
Lemma add_days_month_end (d : date) :
  valid_date d = true ->
  day d = _days_in_month (year d) (month d) ->
  ~ (year d = 9999 /\ month d = 12) ->
  add_days d 1 = Ok (next_month_start (year d) (month d)).
Proof.
  intros Hd Hday Hlast. pose proof Hd as Hv. apply valid_date_spec in Hv.
  apply add_days_exact.
  - apply next_month_start_valid; lia.
  - rewrite toordinal_next_month_start by lia.
    unfold toordinal, _ymd2ord. cbn [year month day]. lia.
Qed.

Lemma is_end_of_month_value (d : date) :
  valid_date d = true -> d <> mkdate 9999 12 31 ->
  date_utils.is_end_of_month d = Ok (day d =? _days_in_month (year d) (month d)).
Proof.
  intros Hd Hmax. pose proof Hd as Hv. apply valid_date_spec in Hv.
  unfold date_utils.is_end_of_month.
  destruct (Z.eqb_spec (day d) (_days_in_month (year d) (month d))) as [Hday | Hday].
  - assert (Hlast : ~ (year d = 9999 /\ month d = 12)).
    { intros [Hy Hm]. apply Hmax. destruct d as [y m dd]. cbn [year month day] in *.
      subst y m. rewrite Hday. reflexivity. }
    rewrite add_days_month_end by assumption.
    pose proof (next_month_start_month (year d) (month d) ltac:(lia)) as Hne.
    apply Z.eqb_neq in Hne. rewrite Hne. reflexivity.
  - rewrite (add_days_in_month d 1) by (auto; lia).
    cbn [month]. rewrite Z.eqb_refl. reflexivity.
Qed.

Lemma end_of_month_value (d : date) :
  valid_date d = true -> ~ (year d = 9999 /\ month d = 12) ->
  date_utils.end_of_month d
  = Ok (mkdate (year d) (month d) (_days_in_month (year d) (month d))).
Proof.
  intros Hd Hlast. pose proof Hd as Hv. apply valid_date_spec in Hv.
  pose proof (days_in_month_bounds (year d) (month d) ltac:(lia)) as Hdim.
  unfold date_utils.end_of_month.
  rewrite is_end_of_month_value; [| exact Hd | intros ->; apply Hlast; split; reflexivity].
  destruct (Z.eqb_spec (day d) (_days_in_month (year d) (month d))) as [Hday | Hday].
  { f_equal. destruct d as [y m dd]. cbn [year month day] in *. subst dd. reflexivity. }
  set (first := replace_day d 1).
  set (next := next_month_start (year d) (month d)).
  assert (Hnext : valid_date next = true) by (apply next_month_start_valid; lia).
  assert (Hnext_ord : toordinal next = toordinal first + _days_in_month (year d) (month d))
    by (apply toordinal_next_month_start; lia).
  assert (Hnext_day : day next = 1)
    by (unfold next, next_month_start; destruct (month d =? 12); reflexivity).
  pose proof Hnext as Hnv. apply valid_date_spec in Hnv.
  pose proof (days_in_month_bounds (year next) (month next) ltac:(lia)) as Hdim'.
  rewrite (add_days_exact first
             (mkdate (year next) (month next)
                (33 - _days_in_month (year d) (month d))) 32).
  - unfold replace_day. cbn [year month day].
    unfold sub_days. apply add_days_exact.
    + apply valid_date_spec. cbn [year month day]. lia.
    + unfold toordinal, _ymd2ord in *. cbn [year month day] in *.
      unfold first, replace_day in Hnext_ord. cbn [year month day] in Hnext_ord. lia.
  - apply valid_date_spec. cbn [year month day]. lia.
  - unfold toordinal, _ymd2ord in *. cbn [year month day] in *. lia.
Qed.

End MonthEnd.

Lemma end_of_month_overflow (d : date) :
  valid_date d = true -> year d = 9999 -> month d = 12 ->
  date_utils.end_of_month d = Raise OverflowError.
Proof.
  intros Hd Hy Hm. pose proof Hd as Hv. apply valid_date_spec in Hv.
  assert (Hdim : _days_in_month (year d) (month d) = 31) by (rewrite Hy, Hm; reflexivity).
  assert (Hord : toordinal d = _MAXORDINAL - 31 + day d).
  { unfold toordinal, _ymd2ord. rewrite Hy, Hm. vm_compute (_days_before_year 9999).
    vm_compute (_days_before_month 9999 12). unfold _MAXORDINAL. lia. }
  unfold date_utils.end_of_month.
  destruct (Z.eq_dec (day d) 31) as [H31 | H31].
  - unfold date_utils.is_end_of_month. rewrite add_days_overflow by lia. reflexivity.
  - rewrite is_end_of_month_value;
      [| exact Hd | intros ->; apply H31; reflexivity].
    rewrite Hdim. apply Z.eqb_neq in H31. rewrite H31.
    rewrite add_days_overflow; [reflexivity |].
    left. unfold replace_day, toordinal, _ymd2ord in *. cbn [year month day] in *. lia.
Qed.

(** X1: [is_end_of_month] answers [True] exactly on the last day of a month,
    the 29th for the February of a leap year, for every valid date before
    [date.max]; on [date.max] the date addition raises [OverflowError]. *)
Theorem is_end_of_month_last_day (date : date) :
  valid_date date = true ->
  (date <> mkdate 9999 12 31 ->
   date_utils.is_end_of_month date
   = Ok (day date =? _days_in_month (year date) (month date)))
  /\ (date = mkdate 9999 12 31 ->
      date_utils.is_end_of_month date = Raise OverflowError).
Proof.
  intros Hd. split.
  - intros Hmax. apply is_end_of_month_value; assumption.
  - intros ->. reflexivity.
Qed.

Lemma is_end_of_month_last_day_witness :
  (mkdate 2024 2 29 <> mkdate 9999 12 31 ->
   date_utils.is_end_of_month (mkdate 2024 2 29)
   = Ok (day (mkdate 2024 2 29) =? _days_in_month 2024 2))
  /\ (mkdate 2024 2 29 = mkdate 9999 12 31 ->
      date_utils.is_end_of_month (mkdate 2024 2 29) = Raise OverflowError).
Proof. apply (is_end_of_month_last_day (mkdate 2024 2 29)). reflexivity. Defined.

(** X2: for a valid date of any month but December 9999, [end_of_month]
    returns the last day of the date's own month: same year, same month, and
    the number of days of that month as the day; the result is valid and not
    before the input. *)
Theorem end_of_month_last_day (date : date) :
  valid_date date = true -> ~ (year date = 9999 /\ month date = 12) ->
  exists last : datetime.date,
    date_utils.end_of_month date = Ok last
    /\ year last = year date /\ month last = month date
    /\ day last = _days_in_month (year date) (month date)
    /\ valid_date last = true
    /\ toordinal date <= toordinal last.
Proof.
  intros Hd Hlast. pose proof Hd as Hv. apply valid_date_spec in Hv.
  pose proof (days_in_month_bounds (year date) (month date) ltac:(lia)) as Hdim.
  eexists. split; [apply end_of_month_value; assumption |].
  cbn [year month day]. repeat split.
  - apply valid_date_spec. cbn [year month day]. lia.
  - unfold toordinal, _ymd2ord. cbn [year month day]. lia.
Qed.

Lemma end_of_month_last_day_witness :
  exists last : datetime.date,
    date_utils.end_of_month (mkdate 2023 2 10) = Ok last
    /\ year last = 2023 /\ month last = 2
    /\ day last = _days_in_month 2023 2
    /\ valid_date last = true
    /\ toordinal (mkdate 2023 2 10) <= toordinal last.
Proof.
  apply (end_of_month_last_day (mkdate 2023 2 10)).
  - reflexivity.
  - cbn [year month]. lia.
Defined.

(** X3: [end_of_month] raises [OverflowError] on every valid date of December
    9999: on the 31st because [is_end_of_month] does, and before it because
    the first of the month plus 32 days is past [date.max], although the last
    day of that month exists. *)
Theorem end_of_month_fails_in_last_month (date : date) :
  valid_date date = true -> year date = 9999 -> month date = 12 ->
  date_utils.end_of_month date = Raise OverflowError
  /\ valid_date (mkdate 9999 12 31) = true.
Proof.
  intros Hd Hy Hm. split; [apply end_of_month_overflow; assumption | reflexivity].
Qed.

Lemma end_of_month_fails_in_last_month_witness :
  date_utils.end_of_month (mkdate 9999 12 5) = Raise OverflowError
  /\ valid_date (mkdate 9999 12 31) = true.
Proof.
  apply (end_of_month_fails_in_last_month (mkdate 9999 12 5)); reflexivity.
Defined.

(** X4: a date that [end_of_month] returns is an end of month for
    [is_end_of_month], and [end_of_month] maps it to itself. *)
Theorem end_of_month_idempotent (date last : date) :
  valid_date date = true ->
  date_utils.end_of_month date = Ok last ->
  date_utils.is_end_of_month last = Ok true
  /\ date_utils.end_of_month last = Ok last.
Proof.
  intros Hd Hend. pose proof Hd as Hv. apply valid_date_spec in Hv.
  assert (Hlast : ~ (year date = 9999 /\ month date = 12)).
  { intros [Hy Hm]. rewrite end_of_month_overflow in Hend by assumption. discriminate. }
  rewrite end_of_month_value in Hend by assumption. injection Hend as <-.
  pose proof (days_in_month_bounds (year date) (month date) ltac:(lia)) as Hdim.
  set (last := mkdate (year date) (month date) (_days_in_month (year date) (month date))).
  assert (Hvl : valid_date last = true)
    by (apply valid_date_spec; unfold last; cbn [year month day]; lia).
  split.
  - rewrite is_end_of_month_value.
    + unfold last. cbn [year month day]. rewrite Z.eqb_refl. reflexivity.
    + exact Hvl.
    + intros Hmax. apply Hlast. unfold last in Hmax. injection Hmax as Hy Hm _.
      split; assumption.
  - rewrite end_of_month_value by (unfold last; cbn [year month]; assumption).
    reflexivity.
Qed.

Lemma end_of_month_idempotent_witness :
  date_utils.is_end_of_month (mkdate 2024 2 29) = Ok true
  /\ date_utils.end_of_month (mkdate 2024 2 29) = Ok (mkdate 2024 2 29).
Proof.
  apply (end_of_month_idempotent (mkdate 2024 2 3)); reflexivity.
Defined.

(** ** More on the roll conventions *)

Section Modified.

Variable holidays : gset date.

Lemma walk_stays_on_business_day (step : date -> result date) (d : date) (fuel : nat) :
  date_utils.is_business_day d holidays = true ->
  while_not_business_day step holidays d (S fuel) = Some (Ok d).
Proof. intros Hb. cbn [while_not_business_day]. rewrite Hb. reflexivity. Qed.

(** How [ModifiedFollowing.adjustDay] comes to return a date. *)
Lemma ModifiedFollowing_returns (d r : date) (fuel : nat) :
  ModifiedFollowing.adjustDay d holidays fuel = Some (Ok r) ->
  exists f : date,
    while_not_business_day (fun date => add_days date 1) holidays d fuel = Some (Ok f)
    /\ ((month f = month d /\ r = f)
        \/ (month f <> month d
            /\ exists g : date,
                sub_days f 1 = Ok g
                /\ while_not_business_day (fun date => sub_days date 1) holidays g fuel
                   = Some (Ok r))).
Proof.
  unfold ModifiedFollowing.adjustDay. cbv zeta.
  destruct (while_not_business_day (fun date => add_days date 1) holidays d fuel)
    as [[f | e] |]; cbn [bind]; try discriminate.
  intros Hrun. exists f. split; [reflexivity |].
  destruct (Z.eqb_spec (month f) (month d)) as [Hmonth | Hmonth]; cbn [negb] in Hrun.
  - left. injection Hrun as <-. split; [exact Hmonth | reflexivity].
  - right. split; [exact Hmonth |].
    destruct (sub_days f 1) as [g | e]; cbn [bind] in Hrun; try discriminate.
    exists g. split; [reflexivity | exact Hrun].
Qed.

(** How [ModifiedPreceding.adjustDay] comes to return a date. *)
Lemma ModifiedPreceding_returns (d r : date) (fuel : nat) :
  ModifiedPreceding.adjustDay d holidays fuel = Some (Ok r) ->
  exists p : date,
    while_not_business_day (fun date => sub_days date 1) holidays d fuel = Some (Ok p)
    /\ ((month p = month d /\ r = p)
        \/ (month p <> month d
            /\ exists g : date,
                add_days p 1 = Ok g
                /\ while_not_business_day (fun date => add_days date 1) holidays g fuel
                   = Some (Ok r))).
Proof.
  unfold ModifiedPreceding.adjustDay. cbv zeta.
  destruct (while_not_business_day (fun date => sub_days date 1) holidays d fuel)
    as [[p | e] |]; cbn [bind]; try discriminate.
  intros Hrun. exists p. split; [reflexivity |].
  destruct (Z.eqb_spec (month p) (month d)) as [Hmonth | Hmonth]; cbn [negb] in Hrun.
  - left. injection Hrun as <-. split; [exact Hmonth | reflexivity].
  - right. split; [exact Hmonth |].
    destruct (add_days p 1) as [g | e]; cbn [bind] in Hrun; try discriminate.
    exists g. split; [reflexivity | exact Hrun].
Qed.

(** A date returned by any of the four methods is a valid business day. *)
Lemma adjusted_is_business_day (d r : date) :
  valid_date d = true ->
  Following.adjustDay d holidays ~~> Ok r
  \/ ModifiedFollowing.adjustDay d holidays ~~> Ok r
  \/ Preceding.adjustDay d holidays ~~> Ok r
  \/ ModifiedPreceding.adjustDay d holidays ~~> Ok r ->
  valid_date r = true /\ date_utils.is_business_day r holidays = true.
Proof.
  intros Hd [[fuel Hrun] | [[fuel Hrun] | [[fuel Hrun] | [fuel Hrun]]]].
  - pose proof (forward_walk_ends holidays fuel d (Ok r) Hd Hrun) as (Hr & Hb & _).
    split; assumption.
  - apply ModifiedFollowing_returns in Hrun.
    destruct Hrun as (f & Hfwd & [[_ ->] | (_ & g & Hstep & Hbwd)]).
    + pose proof (forward_walk_ends holidays fuel d (Ok f) Hd Hfwd) as (Hr & Hb & _).
      split; assumption.
    + apply add_days_Ok in Hstep. destruct Hstep as (Hg & _).
      pose proof (backward_walk_ends holidays fuel g (Ok r) Hg Hbwd) as (Hr & Hb & _).
      split; assumption.
  - pose proof (backward_walk_ends holidays fuel d (Ok r) Hd Hrun) as (Hr & Hb & _).
    split; assumption.
  - apply ModifiedPreceding_returns in Hrun.
    destruct Hrun as (p & Hbwd & [[_ ->] | (_ & g & Hstep & Hfwd)]).
    + pose proof (backward_walk_ends holidays fuel d (Ok p) Hd Hbwd) as (Hr & Hb & _).
      split; assumption.
    + apply add_days_Ok in Hstep. destruct Hstep as (Hg & _).
      pose proof (forward_walk_ends holidays fuel g (Ok r) Hg Hfwd) as (Hr & Hb & _).
      split; assumption.
Qed.

(** The four methods return a business day as it is. *)
Lemma business_day_is_fixed (d : date) :
  date_utils.is_business_day d holidays = true ->
  Following.adjustDay d holidays ~~> Ok d
  /\ ModifiedFollowing.adjustDay d holidays ~~> Ok d
  /\ Preceding.adjustDay d holidays ~~> Ok d
  /\ ModifiedPreceding.adjustDay d holidays ~~> Ok d.
Proof.
  intros Hb. repeat split; exists 1%nat;
    unfold Following.adjustDay, ModifiedFollowing.adjustDay, Preceding.adjustDay,
      ModifiedPreceding.adjustDay; cbv zeta;
    rewrite walk_stays_on_business_day by exact Hb; try reflexivity;
    cbn [bind]; rewrite Z.eqb_refl; reflexivity.
Qed.

End Modified.

(** X5: whatever one of the four roll methods returns for a valid date is a
    valid business day, and each of the four methods returns that day when
    given it: adjusting twice is adjusting once. *)
Theorem adjusted_date_is_fixed (date r : date) (holidays : gset datetime.date) :
  valid_date date = true ->
  Following.adjustDay date holidays ~~> Ok r
  \/ ModifiedFollowing.adjustDay date holidays ~~> Ok r
  \/ Preceding.adjustDay date holidays ~~> Ok r
  \/ ModifiedPreceding.adjustDay date holidays ~~> Ok r ->
  valid_date r = true
  /\ date_utils.is_business_day r holidays = true
  /\ Following.adjustDay r holidays ~~> Ok r
  /\ ModifiedFollowing.adjustDay r holidays ~~> Ok r
  /\ Preceding.adjustDay r holidays ~~> Ok r
  /\ ModifiedPreceding.adjustDay r holidays ~~> Ok r.
Proof.
  intros Hd Hrun.
  destruct (adjusted_is_business_day holidays date r Hd Hrun) as [Hr Hb].
  split; [exact Hr |]. split; [exact Hb |].
  apply business_day_is_fixed, Hb.
Qed.

Lemma adjusted_date_is_fixed_witness :
  valid_date (mkdate 2023 12 29) = true
  /\ date_utils.is_business_day (mkdate 2023 12 29) ∅ = true
  /\ Following.adjustDay (mkdate 2023 12 29) ∅ ~~> Ok (mkdate 2023 12 29)
  /\ ModifiedFollowing.adjustDay (mkdate 2023 12 29) ∅ ~~> Ok (mkdate 2023 12 29)
  /\ Preceding.adjustDay (mkdate 2023 12 29) ∅ ~~> Ok (mkdate 2023 12 29)
  /\ ModifiedPreceding.adjustDay (mkdate 2023 12 29) ∅ ~~> Ok (mkdate 2023 12 29).
Proof.
  apply (adjusted_date_is_fixed (mkdate 2023 12 31) (mkdate 2023 12 29) ∅).
  - vm_compute. reflexivity.
  - right. left. exists 3%nat. vm_compute. reflexivity.
Defined.



(** X7: when [ModifiedPreceding.adjustDay] returns, from a valid date, either
    the backward walk ended on a date with the month number of the input, and
    that date, on or before the input, is returned, or the returned date is
    strictly after the input, hence in the input's (year, month) or a later
    one. *)
Theorem ModifiedPreceding_month_or_later
  (date : date) (holidays : gset datetime.date) (r : datetime.date) :
  valid_date date = true ->
  ModifiedPreceding.adjustDay date holidays ~~> Ok r ->
  (Preceding.adjustDay date holidays ~~> Ok r
   /\ month r = month date
   /\ toordinal r <= toordinal date
   /\ year r <= year date)
  \/ (toordinal date < toordinal r
      /\ (year date < year r \/ (year date = year r /\ month date <= month r))).
Proof.
  intros Hd [fuel Hrun]. pose proof (valid_date_well_formed date Hd) as Hwd.
  apply ModifiedPreceding_returns in Hrun.
  destruct Hrun as (p & Hbwd & [[Hmonth ->] | (Hmonth & g & Hstep & Hfwd)]);
    pose proof (backward_walk_ends holidays fuel date (Ok p) Hd Hbwd)
      as (Hp & Hpbus & Hpd & Hfirst).
  - left. repeat split; try assumption.
    + exists fuel. exact Hbwd.
    + apply toordinal_le_year; auto using valid_date_well_formed.
  - apply add_days_Ok in Hstep. destruct Hstep as (Hg & Hgord & _).
    pose proof (forward_walk_ends holidays fuel g (Ok r) Hg Hfwd)
      as (Hr & Hrbus & Hgr & _).
    assert (Hlt : toordinal date < toordinal r).
    { destruct (Z.lt_ge_cases (toordinal date) (toordinal r)) as [Hlt | Hge];
        [exact Hlt |].
      rewrite Hfirst in Hrbus by (auto; lia). discriminate. }
    right. split; [exact Hlt |].
    apply toordinal_le_year_month; auto using valid_date_well_formed. lia.
Qed.

Lemma ModifiedPreceding_month_or_later_witness :
  (Preceding.adjustDay (mkdate 2023 4 1) ∅ ~~> Ok (mkdate 2023 4 3)
   /\ month (mkdate 2023 4 3) = month (mkdate 2023 4 1)
   /\ toordinal (mkdate 2023 4 3) <= toordinal (mkdate 2023 4 1)
   /\ year (mkdate 2023 4 3) <= year (mkdate 2023 4 1))
  \/ (toordinal (mkdate 2023 4 1) < toordinal (mkdate 2023 4 3)
      /\ (year (mkdate 2023 4 1) < year (mkdate 2023 4 3)
          \/ (year (mkdate 2023 4 1) = year (mkdate 2023 4 3)
              /\ month (mkdate 2023 4 1) <= month (mkdate 2023 4 3)))).
Proof.
  apply (ModifiedPreceding_month_or_later (mkdate 2023 4 1) ∅ (mkdate 2023 4 3)).
  - vm_compute. reflexivity.
  - exists 3%nat. vm_compute. reflexivity.
Defined.

(** X8: more holidays never bring the adjusted date closer: with
    [holidays] included in [holidays'], [Following.adjustDay] returns under
    [holidays'] a date on or after the one it returns under [holidays], and
    [Preceding.adjustDay] a date on or before. *)
Theorem more_holidays_roll_further
  (date r r' : date) (holidays holidays' : gset datetime.date) :
  valid_date date = true -> holidays ⊆ holidays' ->
  (Following.adjustDay date holidays ~~> Ok r ->
   Following.adjustDay date holidays' ~~> Ok r' ->
   toordinal r <= toordinal r')
  /\ (Preceding.adjustDay date holidays ~~> Ok r ->
      Preceding.adjustDay date holidays' ~~> Ok r' ->
      toordinal r' <= toordinal r).
Proof.
  intros Hd Hsub.
  assert (Hweaker : forall b, date_utils.is_business_day b holidays' = true ->
                         date_utils.is_business_day b holidays = true).
  { intros b. unfold date_utils.is_business_day.
    rewrite !andb_true_iff, !negb_true_iff, !bool_decide_eq_false.
    intros [Hw Hb]. split; [exact Hw |]. intros Hin. apply Hb, Hsub, Hin. }
  split; intros [fuel Hrun] [fuel' Hrun'].
  - pose proof (forward_walk_ends holidays fuel date (Ok r) Hd Hrun)
      as (_ & _ & _ & Hfirst).
    pose proof (forward_walk_ends holidays' fuel' date (Ok r') Hd Hrun')
      as (Hr' & Hb' & Hdr' & _).
    destruct (Z.le_gt_cases (toordinal r) (toordinal r')) as [Hle | Hgt]; [exact Hle |].
    apply Hweaker in Hb'. rewrite Hfirst in Hb' by (auto; lia). discriminate.
  - pose proof (backward_walk_ends holidays fuel date (Ok r) Hd Hrun)
      as (_ & _ & _ & Hfirst).
    pose proof (backward_walk_ends holidays' fuel' date (Ok r') Hd Hrun')
      as (Hr' & Hb' & Hdr' & _).
    destruct (Z.le_gt_cases (toordinal r') (toordinal r)) as [Hle | Hgt]; [exact Hle |].
    apply Hweaker in Hb'. rewrite Hfirst in Hb' by (auto; lia). discriminate.
Qed.

Lemma more_holidays_roll_further_witness :
  (Following.adjustDay (mkdate 2023 12 30) ∅ ~~> Ok (mkdate 2024 1 1) ->
   Following.adjustDay (mkdate 2023 12 30) {[ mkdate 2024 1 1 ]} ~~> Ok (mkdate 2024 1 2) ->
   toordinal (mkdate 2024 1 1) <= toordinal (mkdate 2024 1 2))
  /\ (Preceding.adjustDay (mkdate 2023 12 30) ∅ ~~> Ok (mkdate 2024 1 1) ->
      Preceding.adjustDay (mkdate 2023 12 30) {[ mkdate 2024 1 1 ]} ~~> Ok (mkdate 2024 1 2) ->
      toordinal (mkdate 2024 1 2) <= toordinal (mkdate 2024 1 1)).
Proof.
  apply (more_holidays_roll_further (mkdate 2023 12 30)).
  - vm_compute. reflexivity.
  - apply empty_subseteq.
Defined.

Section ModifiedEnds.

Variable holidays : gset date.

Lemma ModifiedFollowing_total (d : date) :
  valid_date d = true -> exists res, ModifiedFollowing.adjustDay d holidays ~~> res.
Proof.
  intros Hd. destruct (forward_walk_total holidays d Hd) as (fuel & res & Hfwd).
  unfold ends_with, ModifiedFollowing.adjustDay. cbv zeta.
  destruct res as [f | e]; [| exists (Raise e), fuel; rewrite Hfwd; reflexivity].
  destruct (Z.eqb_spec (month f) (month d)) as [Hmonth | Hmonth].
  { exists (Ok f), fuel. rewrite Hfwd. cbn [bind].
    apply Z.eqb_eq in Hmonth. rewrite Hmonth. reflexivity. }
  apply Z.eqb_neq in Hmonth.
  destruct (sub_days f 1) as [g | e] eqn:Hstep.
  - pose proof (add_days_Ok f g (- 1) Hstep) as (Hg & _).
    destruct (backward_walk_total holidays g Hg) as (fuel' & res & Hbwd).
    exists res, (Nat.max fuel fuel').
    rewrite (while_fuel_mono holidays _ fuel (Nat.max fuel fuel') d (Ok f) Hfwd) by lia.
    cbn [bind]. rewrite Hmonth, Hstep. cbn [negb bind].
    apply (while_fuel_mono holidays _ fuel' (Nat.max fuel fuel') g res Hbwd). lia.
  - exists (Raise e), fuel. rewrite Hfwd. cbn [bind]. rewrite Hmonth, Hstep. reflexivity.
Qed.

Lemma ModifiedFollowing_raises (d : date) (e : exn) :
  valid_date d = true ->
  ModifiedFollowing.adjustDay d holidays ~~> Raise e ->
  e = OverflowError
  /\ ((forall b, valid_date b = true -> toordinal d <= toordinal b ->
                 date_utils.is_business_day b holidays = false)
      \/ (forall b, valid_date b = true -> toordinal b < toordinal d ->
                    date_utils.is_business_day b holidays = false)).
Proof.
  intros Hd [fuel Hrun]. split; [destruct e; reflexivity |].
  unfold ModifiedFollowing.adjustDay in Hrun. cbv zeta in Hrun.
  destruct (while_not_business_day (fun date => add_days date 1) holidays d fuel)
    as [[f | e'] |] eqn:Hfwd; cbn [bind] in Hrun; try discriminate.
  - pose proof (forward_walk_ends holidays fuel d (Ok f) Hd Hfwd)
      as (Hf & Hfbus & Hdf & Hfirst).
    destruct (Z.eqb_spec (month f) (month d)) as [Hmonth | Hmonth];
      cbn [negb] in Hrun; try discriminate.
    assert (Hne : toordinal d <> toordinal f).
    { intros Heq. apply Hmonth. f_equal. symmetry.
      apply toordinal_inj; auto using valid_date_well_formed. }
    right. intros b Hb Hlt.
    destruct (sub_days f 1) as [g | e'] eqn:Hstep; cbn [bind] in Hrun.
    + apply add_days_Ok in Hstep. destruct Hstep as (Hg & Hgord & _).
      pose proof (backward_walk_ends holidays fuel g (Raise e) Hg Hrun) as (_ & Hnone).
      apply Hnone; [exact Hb | lia].
    + apply add_days_Raise in Hstep. destruct Hstep as (_ & Hout).
      pose proof (toordinal_range d Hd). pose proof (toordinal_range f Hf). lia.
  - pose proof (forward_walk_ends holidays fuel d (Raise e') Hd Hfwd) as (_ & Hnone).
    left. exact Hnone.
Qed.

Lemma ModifiedPreceding_total (d : date) :
  valid_date d = true -> exists res, ModifiedPreceding.adjustDay d holidays ~~> res.
Proof.
  intros Hd. destruct (backward_walk_total holidays d Hd) as (fuel & res & Hbwd).
  unfold ends_with, ModifiedPreceding.adjustDay. cbv zeta.
  destruct res as [p | e]; [| exists (Raise e), fuel; rewrite Hbwd; reflexivity].
  destruct (Z.eqb_spec (month p) (month d)) as [Hmonth | Hmonth].
  { exists (Ok p), fuel. rewrite Hbwd. cbn [bind].
    apply Z.eqb_eq in Hmonth. rewrite Hmonth. reflexivity. }
  apply Z.eqb_neq in Hmonth.
  destruct (add_days p 1) as [g | e] eqn:Hstep.
  - pose proof (add_days_Ok p g 1 Hstep) as (Hg & _).
    destruct (forward_walk_total holidays g Hg) as (fuel' & res & Hfwd).
    exists res, (Nat.max fuel fuel').
    rewrite (while_fuel_mono holidays _ fuel (Nat.max fuel fuel') d (Ok p) Hbwd) by lia.
    cbn [bind]. rewrite Hmonth, Hstep. cbn [negb bind].
    apply (while_fuel_mono holidays _ fuel' (Nat.max fuel fuel') g res Hfwd). lia.
  - exists (Raise e), fuel. rewrite Hbwd. cbn [bind]. rewrite Hmonth, Hstep. reflexivity.
Qed.

Lemma ModifiedPreceding_raises (d : date) (e : exn) :
  valid_date d = true ->
  ModifiedPreceding.adjustDay d holidays ~~> Raise e ->
  e = OverflowError
  /\ ((forall b, valid_date b = true -> toordinal b <= toordinal d ->
                 date_utils.is_business_day b holidays = false)
      \/ (forall b, valid_date b = true -> toordinal d < toordinal b ->
                    date_utils.is_business_day b holidays = false)).
Proof.
  intros Hd [fuel Hrun]. split; [destruct e; reflexivity |].
  unfold ModifiedPreceding.adjustDay in Hrun. cbv zeta in Hrun.
  destruct (while_not_business_day (fun date => sub_days date 1) holidays d fuel)
    as [[p | e'] |] eqn:Hbwd; cbn [bind] in Hrun; try discriminate.
  - pose proof (backward_walk_ends holidays fuel d (Ok p) Hd Hbwd)
      as (Hp & Hpbus & Hpd & Hfirst).
    destruct (Z.eqb_spec (month p) (month d)) as [Hmonth | Hmonth];
      cbn [negb] in Hrun; try discriminate.
    assert (Hne : toordinal d <> toordinal p).
    { intros Heq. apply Hmonth. f_equal. symmetry.
      apply toordinal_inj; auto using valid_date_well_formed. }
    right. intros b Hb Hlt.
    destruct (add_days p 1) as [g | e'] eqn:Hstep; cbn [bind] in Hrun.
    + apply add_days_Ok in Hstep. destruct Hstep as (Hg & Hgord & _).
      pose proof (forward_walk_ends holidays fuel g (Raise e) Hg Hrun) as (_ & Hnone).
      apply Hnone; [exact Hb | lia].
    + apply add_days_Raise in Hstep. destruct Hstep as (_ & Hout).
      pose proof (toordinal_range d Hd). pose proof (toordinal_range p Hp). lia.
  - pose proof (backward_walk_ends holidays fuel d (Raise e') Hd Hbwd) as (_ & Hnone).
    left. exact Hnone.
Qed.

End ModifiedEnds.

(** X9: on a valid date [ModifiedFollowing.adjustDay] always ends, and the only
    exception it can end with is [OverflowError], which takes a holiday set
    with no business day from the input to [date.max] or with none before the
    input; [ModifiedPreceding.adjustDay] likewise, with the directions
    exchanged. *)
Theorem modified_walks_end (date : date) (holidays : gset datetime.date) :
  valid_date date = true ->
  (exists res, ModifiedFollowing.adjustDay date holidays ~~> res)
  /\ (forall e, ModifiedFollowing.adjustDay date holidays ~~> Raise e ->
        e = OverflowError
        /\ ((forall b, valid_date b = true -> toordinal date <= toordinal b ->
                       date_utils.is_business_day b holidays = false)
            \/ (forall b, valid_date b = true -> toordinal b < toordinal date ->
                          date_utils.is_business_day b holidays = false)))
  /\ (exists res, ModifiedPreceding.adjustDay date holidays ~~> res)
  /\ (forall e, ModifiedPreceding.adjustDay date holidays ~~> Raise e ->
        e = OverflowError
        /\ ((forall b, valid_date b = true -> toordinal b <= toordinal date ->
                       date_utils.is_business_day b holidays = false)
            \/ (forall b, valid_date b = true -> toordinal date < toordinal b ->
                          date_utils.is_business_day b holidays = false))).
Proof.
  intros Hd. split; [apply ModifiedFollowing_total, Hd |].
  split; [intros e; apply ModifiedFollowing_raises, Hd |].
  split; [apply ModifiedPreceding_total, Hd |].
  intros e; apply ModifiedPreceding_raises, Hd.
Qed.

Lemma modified_walks_end_witness :
  exists res, ModifiedFollowing.adjustDay (mkdate 2023 12 31) ∅ ~~> res.
Proof.
  apply (modified_walks_end (mkdate 2023 12 31) ∅). vm_compute. reflexivity.
Defined.

(** ** Weekends only: the empty holiday set *)

Section Weekends.

Lemma is_business_day_no_holidays (d : date) :
  date_utils.is_business_day d ∅ = (weekday d <? 5).
Proof.
  unfold date_utils.is_business_day.
  rewrite (bool_decide_eq_false_2 (d ∈ (∅ : gset date))) by apply not_elem_of_empty.
  apply andb_true_r.
Qed.

(** A date found at [k] days from [d] is in the month of [d] when the day
    number allows it, and else, up to 28 days ahead, in the next month. *)
Lemma date_at_offset_same_month (d r : date) (k : Z) :
  valid_date d = true -> valid_date r = true ->
  toordinal r = toordinal d + k ->
  1 <= day d + k <= _days_in_month (year d) (month d) ->
  r = mkdate (year d) (month d) (day d + k).
Proof.
  intros Hd Hr Hord Hk. apply valid_date_spec in Hd.
  apply toordinal_inj.
  - apply valid_date_well_formed, Hr.
  - split; cbn [year month day]; lia.
  - rewrite Hord. unfold toordinal, _ymd2ord. cbn [year month day]. lia.
Qed.

Lemma date_at_offset_next_month (d r : date) (k : Z) :
  valid_date d = true -> valid_date r = true ->
  toordinal r = toordinal d + k ->
  _days_in_month (year d) (month d) < day d + k
                                    <= _days_in_month (year d) (month d) + 28 ->
  month r <> month d.
Proof.
  intros Hd Hr Hord Hk. apply valid_date_spec in Hd.
  set (next := next_month_start (year d) (month d)).
  pose proof (next_month_start_well_formed (year d) (month d) ltac:(lia)) as [Hnm Hnd].
  pose proof (toordinal_next_month_start (year d) (month d) ltac:(lia)) as Hnord.
  pose proof (next_month_start_month (year d) (month d) ltac:(lia)) as Hne.
  fold next in Hnm, Hnd, Hnord, Hne.
  assert (Hnday : day next = 1)
    by (unfold next, next_month_start; destruct (month d =? 12); reflexivity).
  pose proof (days_in_month_bounds (year next) (month next) Hnm) as Hdim.
  assert (Heq : r = mkdate (year next) (month next)
                      (day d + k - _days_in_month (year d) (month d))).
  { apply toordinal_inj.
    - apply valid_date_well_formed, Hr.
    - split; cbn [year month day]; lia.
    - rewrite Hord. unfold toordinal, _ymd2ord in *. cbn [year month day] in *. lia. }
  rewrite Heq. cbn [month]. exact Hne.
Qed.

(** With no holidays the forward walk stops after 0, 1 or 2 steps. *)
Lemma forward_walk_weekend (d : date) :
  valid_date d = true ->
  exists (fuel : nat) (r : date),
    while_not_business_day (fun date => add_days date 1) ∅ d fuel = Some (Ok r)
    /\ valid_date r = true
    /\ toordinal r
       = toordinal d + (if weekday d =? 5 then 2 else if weekday d =? 6 then 1 else 0).
Proof.
  intros Hd. pose proof (toordinal_range d Hd) as Hrange. unfold _MAXORDINAL in Hrange.
  destruct (forward_walk_total ∅ d Hd) as (fuel & res & Hrun).
  pose proof (forward_walk_ends ∅ fuel d res Hd Hrun) as Hends.
  set (off := if weekday d =? 5 then 2 else if weekday d =? 6 then 1 else 0).
  assert (Hoff : 1 <= toordinal d + off <= 3652059 /\ 0 <= off <= 2
                 /\ (toordinal d + off + 6) mod 7 < 5
                 /\ forall j, 0 <= j < off -> 5 <= (toordinal d + j + 6) mod 7).
  { subst off. unfold weekday.
    destruct (Z.eqb_spec ((toordinal d + 6) mod 7) 5);
      [| destruct (Z.eqb_spec ((toordinal d + 6) mod 7) 6)];
      repeat split; try lia; try (intros j Hj);
      Z.div_mod_to_equations; lia. }
  destruct Hoff as (Hin & Hoff & Hweek & Hbefore).
  set (b := fromordinal (toordinal d + off)).
  assert (Hb : valid_date b = true) by (apply fromordinal_valid; unfold _MAXORDINAL; lia).
  assert (Hbord : toordinal b = toordinal d + off) by apply toordinal_fromordinal.
  assert (Hbbus : date_utils.is_business_day b ∅ = true).
  { rewrite is_business_day_no_holidays. apply Z.ltb_lt. unfold weekday.
    rewrite Hbord. exact Hweek. }
  destruct res as [r | e].
  - destruct Hends as (Hr & Hrbus & Hdr & Hfirst).
    exists fuel, r. split; [exact Hrun |]. split; [exact Hr |].
    rewrite is_business_day_no_holidays in Hrbus. apply Z.ltb_lt in Hrbus.
    unfold weekday in Hrbus.
    assert (Hle : toordinal r <= toordinal b).
    { destruct (Z.le_gt_cases (toordinal r) (toordinal b)) as [Hle | Hgt]; [exact Hle |].
      rewrite Hfirst in Hbbus by (auto; lia). discriminate. }
    destruct (Z.eq_dec (toordinal r) (toordinal d + off)) as [Heq | Hne]; [exact Heq |].
    specialize (Hbefore (toordinal r - toordinal d) ltac:(lia)).
    replace (toordinal d + (toordinal r - toordinal d) + 6)
      with (toordinal r + 6) in Hbefore by lia.
    lia.
  - destruct Hends as (_ & Hnone). rewrite Hnone in Hbbus by (auto; lia). discriminate.
Qed.

(** With no holidays the backward walk stops after 0, 1 or 2 steps. *)
Lemma backward_walk_weekend (d : date) :
  valid_date d = true ->
  exists (fuel : nat) (r : date),
    while_not_business_day (fun date => sub_days date 1) ∅ d fuel = Some (Ok r)
    /\ valid_date r = true
    /\ toordinal r
       = toordinal d - (if weekday d =? 5 then 1 else if weekday d =? 6 then 2 else 0).
Proof.
  intros Hd. pose proof (toordinal_range d Hd) as Hrange. unfold _MAXORDINAL in Hrange.
  destruct (backward_walk_total ∅ d Hd) as (fuel & res & Hrun).
  pose proof (backward_walk_ends ∅ fuel d res Hd Hrun) as Hends.
  set (off := if weekday d =? 5 then 1 else if weekday d =? 6 then 2 else 0).
  assert (Hoff : 1 <= toordinal d - off <= 3652059 /\ 0 <= off <= 2
                 /\ (toordinal d - off + 6) mod 7 < 5
                 /\ forall j, 0 <= j < off -> 5 <= (toordinal d - j + 6) mod 7).
  { subst off. unfold weekday.
    destruct (Z.eqb_spec ((toordinal d + 6) mod 7) 5);
      [| destruct (Z.eqb_spec ((toordinal d + 6) mod 7) 6)];
      repeat split; try lia; try (intros j Hj);
      Z.div_mod_to_equations; lia. }
  destruct Hoff as (Hin & Hoff & Hweek & Hbefore).
  set (b := fromordinal (toordinal d - off)).
  assert (Hb : valid_date b = true) by (apply fromordinal_valid; unfold _MAXORDINAL; lia).
  assert (Hbord : toordinal b = toordinal d - off) by apply toordinal_fromordinal.
  assert (Hbbus : date_utils.is_business_day b ∅ = true).
  { rewrite is_business_day_no_holidays. apply Z.ltb_lt. unfold weekday.
    rewrite Hbord. exact Hweek. }
  destruct res as [r | e].
  - destruct Hends as (Hr & Hrbus & Hdr & Hfirst).
    exists fuel, r. split; [exact Hrun |]. split; [exact Hr |].
    rewrite is_business_day_no_holidays in Hrbus. apply Z.ltb_lt in Hrbus.
    unfold weekday in Hrbus.
    assert (Hle : toordinal b <= toordinal r).
    { destruct (Z.le_gt_cases (toordinal b) (toordinal r)) as [Hle | Hgt]; [exact Hle |].
      rewrite Hfirst in Hbbus by (auto; lia). discriminate. }
    destruct (Z.eq_dec (toordinal r) (toordinal d - off)) as [Heq | Hne]; [exact Heq |].
    specialize (Hbefore (toordinal d - toordinal r) ltac:(lia)).
    replace (toordinal d - (toordinal d - toordinal r) + 6)
      with (toordinal r + 6) in Hbefore by lia.
    lia.
  - destruct Hends as (_ & Hnone). rewrite Hnone in Hbbus by (auto; lia). discriminate.
Qed.

End Weekends.

Section WeekendsModified.

Lemma ModifiedFollowing_same_month (h : gset date) (d f : date) (fuel : nat) :
  while_not_business_day (fun date => add_days date 1) h d fuel = Some (Ok f) ->
  month f = month d ->
  ModifiedFollowing.adjustDay d h ~~> Ok f.
Proof.
  intros Hfwd Hmonth. exists fuel. unfold ModifiedFollowing.adjustDay.
  rewrite Hfwd. cbn [bind]. apply Z.eqb_eq in Hmonth. rewrite Hmonth. reflexivity.
Qed.

Lemma ModifiedFollowing_other_month (h : gset date) (d f g : date) (fuel fuel' : nat)
  (res : result date) :
  while_not_business_day (fun date => add_days date 1) h d fuel = Some (Ok f) ->
  month f <> month d ->
  sub_days f 1 = Ok g ->
  while_not_business_day (fun date => sub_days date 1) h g fuel' = Some res ->
  ModifiedFollowing.adjustDay d h ~~> res.
Proof.
  intros Hfwd Hmonth Hstep Hbwd.
  exists (Nat.max fuel fuel'). unfold ModifiedFollowing.adjustDay.
  rewrite (while_fuel_mono h _ fuel (Nat.max fuel fuel') d (Ok f) Hfwd) by lia.
  cbn [bind]. apply Z.eqb_neq in Hmonth. rewrite Hmonth, Hstep. cbn [negb bind].
  apply (while_fuel_mono h _ fuel' (Nat.max fuel fuel') g res Hbwd). lia.
Qed.

Lemma ModifiedPreceding_same_month (h : gset date) (d p : date) (fuel : nat) :
  while_not_business_day (fun date => sub_days date 1) h d fuel = Some (Ok p) ->
  month p = month d ->
  ModifiedPreceding.adjustDay d h ~~> Ok p.
Proof.
  intros Hbwd Hmonth. exists fuel. unfold ModifiedPreceding.adjustDay.
  rewrite Hbwd. cbn [bind]. apply Z.eqb_eq in Hmonth. rewrite Hmonth. reflexivity.
Qed.

Lemma ModifiedPreceding_other_month (h : gset date) (d p g : date) (fuel fuel' : nat)
  (res : result date) :
  while_not_business_day (fun date => sub_days date 1) h d fuel = Some (Ok p) ->
  month p <> month d ->
  add_days p 1 = Ok g ->
  while_not_business_day (fun date => add_days date 1) h g fuel' = Some res ->
  ModifiedPreceding.adjustDay d h ~~> res.
Proof.
  intros Hbwd Hmonth Hstep Hfwd.
  exists (Nat.max fuel fuel'). unfold ModifiedPreceding.adjustDay.
  rewrite (while_fuel_mono h _ fuel (Nat.max fuel fuel') d (Ok p) Hbwd) by lia.
  cbn [bind]. apply Z.eqb_neq in Hmonth. rewrite Hmonth, Hstep. cbn [negb bind].
  apply (while_fuel_mono h _ fuel' (Nat.max fuel fuel') g res Hfwd). lia.
Qed.

Lemma walk_result_weekday (step : date -> result date) (d r : date) (fuel : nat) :
  while_not_business_day step ∅ d fuel = Some (Ok r) -> weekday r < 5.
Proof.
  revert d. induction fuel as [| fuel IH]; intros d Hrun; [discriminate |].
  cbn [while_not_business_day] in Hrun.
  destruct (date_utils.is_business_day d ∅) eqn:Hb; cbn [negb] in Hrun.
  - injection Hrun as <-. rewrite is_business_day_no_holidays in Hb.
    apply Z.ltb_lt, Hb.
  - destruct (step d) as [d' | e]; [apply (IH d' Hrun) | discriminate].
Qed.

(** X11: with an empty holiday set [ModifiedFollowing.adjustDay] returns, for
    every valid date, a weekday of the year and month of the input, at most
    two days away from it. *)
Theorem ModifiedFollowing_stays_in_month (d : date) :
  valid_date d = true ->
  exists r : date,
    ModifiedFollowing.adjustDay d ∅ ~~> Ok r
    /\ year r = year d /\ month r = month d /\ weekday r < 5
    /\ -2 <= toordinal r - toordinal d <= 2.
Proof.
  intros Hd. pose proof (toordinal_range d Hd) as Hrange.
  pose proof Hd as Hv. apply valid_date_spec in Hv.
  pose proof (days_in_month_bounds (year d) (month d) ltac:(lia)) as Hdim.
  destruct (forward_walk_weekend d Hd) as (fuel & f & Hfwd & Hf & Hford).
  set (off := if weekday d =? 5 then 2 else if weekday d =? 6 then 1 else 0) in Hford.
  assert (Hoff : 0 <= off <= 2)
    by (subst off; destruct (weekday d =? 5), (weekday d =? 6); lia).
  destruct (Z.le_gt_cases (day d + off) (_days_in_month (year d) (month d)))
    as [Hin | Hout].
  - pose proof (date_at_offset_same_month d f off Hd Hf Hford ltac:(lia)) as Heq.
    exists f. split.
    { apply (ModifiedFollowing_same_month ∅ d f fuel Hfwd). rewrite Heq. reflexivity. }
    split; [rewrite Heq; reflexivity |]. split; [rewrite Heq; reflexivity |].
    split; [apply (walk_result_weekday _ d f fuel Hfwd) | lia].
  - pose proof (date_at_offset_next_month d f off Hd Hf Hford ltac:(lia)) as Hmonth.
    pose proof (toordinal_range f Hf) as Hfrange.
    set (g := fromordinal (toordinal f - 1)).
    assert (Hg : valid_date g = true) by (apply fromordinal_valid; lia).
    assert (Hgord : toordinal g = toordinal f - 1) by apply toordinal_fromordinal.
    assert (Hstep : sub_days f 1 = Ok g)
      by (unfold sub_days; apply add_days_exact; [exact Hg | lia]).
    destruct (backward_walk_weekend g Hg) as (fuel' & r & Hbwd & Hr & Hrord).
    assert (Hback : toordinal r = toordinal d - 1 \/ toordinal r = toordinal d - 2).
    { revert Hrord. unfold weekday. rewrite Hgord, Hford. subst off. unfold weekday in *.
      destruct (Z.eqb_spec ((toordinal d + 6) mod 7) 5);
        [| destruct (Z.eqb_spec ((toordinal d + 6) mod 7) 6); [| lia]].
      - destruct (Z.eqb_spec ((toordinal d + 2 - 1 + 6) mod 7) 5);
          [exfalso; Z.div_mod_to_equations; lia |].
        destruct (Z.eqb_spec ((toordinal d + 2 - 1 + 6) mod 7) 6);
          [lia | exfalso; Z.div_mod_to_equations; lia].
      - destruct (Z.eqb_spec ((toordinal d + 1 - 1 + 6) mod 7) 5);
          [exfalso; Z.div_mod_to_equations; lia |].
        destruct (Z.eqb_spec ((toordinal d + 1 - 1 + 6) mod 7) 6);
          [lia | exfalso; Z.div_mod_to_equations; lia]. }
    assert (Heq : r = mkdate (year d) (month d) (day d + (toordinal r - toordinal d)))
      by (apply date_at_offset_same_month; auto; lia).
    exists r.
    split; [apply (ModifiedFollowing_other_month ∅ d f g fuel fuel' (Ok r));
            assumption |].
    split; [rewrite Heq; reflexivity |]. split; [rewrite Heq; reflexivity |].
    split; [apply (walk_result_weekday _ g r fuel' Hbwd) | lia].
Qed.

(** X12: with an empty holiday set [ModifiedPreceding.adjustDay] returns, for
    every valid date, a weekday of the year and month of the input, at most
    two days away from it. *)
Theorem ModifiedPreceding_stays_in_month (d : date) :
  valid_date d = true ->
  exists r : date,
    ModifiedPreceding.adjustDay d ∅ ~~> Ok r
    /\ year r = year d /\ month r = month d /\ weekday r < 5
    /\ -2 <= toordinal r - toordinal d <= 2.
Proof.
  intros Hd. pose proof (toordinal_range d Hd) as Hrange.
  pose proof Hd as Hv. apply valid_date_spec in Hv.
  pose proof (days_in_month_bounds (year d) (month d) ltac:(lia)) as Hdim.
  destruct (backward_walk_weekend d Hd) as (fuel & p & Hbwd & Hp & Hpord).
  set (off := if weekday d =? 5 then 1 else if weekday d =? 6 then 2 else 0) in Hpord.
  assert (Hoff : 0 <= off <= 2)
    by (subst off; destruct (weekday d =? 5), (weekday d =? 6); lia).
  destruct (Z.le_gt_cases 1 (day d - off)) as [Hin | Hout].
  - pose proof (date_at_offset_same_month d p (- off) Hd Hp ltac:(lia) ltac:(lia))
      as Heq.
    exists p. split.
    { apply (ModifiedPreceding_same_month ∅ d p fuel Hbwd). rewrite Heq. reflexivity. }
    split; [rewrite Heq; reflexivity |]. split; [rewrite Heq; reflexivity |].
    split; [apply (walk_result_weekday _ d p fuel Hbwd) | lia].
  - pose proof Hp as Hpv. apply valid_date_spec in Hpv.
    pose proof (days_in_month_bounds (year p) (month p) ltac:(lia)) as Hpdim.
    assert (Hcross : _days_in_month (year p) (month p) < day p + off).
    { destruct (Z.lt_ge_cases (_days_in_month (year p) (month p)) (day p + off))
        as [Hlt | Hge]; [exact Hlt |].
      pose proof (date_at_offset_same_month p d off Hp Hd ltac:(lia) ltac:(lia)) as Heq.
      rewrite Heq in Hout. cbn [day] in Hout. lia. }
    assert (Hmonth : month p <> month d).
    { intros Heq. symmetry in Heq. revert Heq.
      apply (date_at_offset_next_month p d off Hp Hd); lia. }
    pose proof (toordinal_range p Hp) as Hprange.
    set (g := fromordinal (toordinal p + 1)).
    assert (Hg : valid_date g = true) by (apply fromordinal_valid; lia).
    assert (Hgord : toordinal g = toordinal p + 1) by apply toordinal_fromordinal.
    assert (Hstep : add_days p 1 = Ok g) by (apply add_days_exact; [exact Hg | lia]).
    destruct (forward_walk_weekend g Hg) as (fuel' & r & Hfwd & Hr & Hrord).
    assert (Hahead : toordinal r = toordinal d + 1 \/ toordinal r = toordinal d + 2).
    { revert Hrord. unfold weekday. rewrite Hgord, Hpord. subst off. unfold weekday in *.
      destruct (Z.eqb_spec ((toordinal d + 6) mod 7) 5);
        [| destruct (Z.eqb_spec ((toordinal d + 6) mod 7) 6); [| lia]].
      - destruct (Z.eqb_spec ((toordinal d - 1 + 1 + 6) mod 7) 5);
          [lia | exfalso; Z.div_mod_to_equations; lia].
      - destruct (Z.eqb_spec ((toordinal d - 2 + 1 + 6) mod 7) 5);
          [lia | exfalso; Z.div_mod_to_equations; lia]. }
    assert (Heq : r = mkdate (year d) (month d) (day d + (toordinal r - toordinal d)))
      by (apply date_at_offset_same_month; auto; lia).
    exists r.
    split; [apply (ModifiedPreceding_other_month ∅ d p g fuel fuel' (Ok r));
            assumption |].
    split; [rewrite Heq; reflexivity |]. split; [rewrite Heq; reflexivity |].
    split; [apply (walk_result_weekday _ g r fuel' Hfwd) | lia].
Qed.

End WeekendsModified.

(** X10: with an empty holiday set [Following.adjustDay] and
    [Preceding.adjustDay] never raise on a valid date: [Following] returns the
    date itself from Monday to Friday, the date two days later on a Saturday
    and one day later on a Sunday; [Preceding] returns the date one day
    earlier on a Saturday and two days earlier on a Sunday. *)
Theorem weekend_rolls_to_nearest_weekday (date : date) :
  valid_date date = true ->
  (exists r : datetime.date,
      Following.adjustDay date ∅ ~~> Ok r
      /\ valid_date r = true
      /\ toordinal r
         = toordinal date
           + (if weekday date =? 5 then 2 else if weekday date =? 6 then 1 else 0))
  /\ (exists r : datetime.date,
        Preceding.adjustDay date ∅ ~~> Ok r
        /\ valid_date r = true
        /\ toordinal r
           = toordinal date
             - (if weekday date =? 5 then 1 else if weekday date =? 6 then 2 else 0)).
Proof.
  intros Hd. split.
  - destruct (forward_walk_weekend date Hd) as (fuel & r & Hrun & Hr & Hord).
    exists r. split; [exists fuel; exact Hrun |]. split; assumption.
  - destruct (backward_walk_weekend date Hd) as (fuel & r & Hrun & Hr & Hord).
    exists r. split; [exists fuel; exact Hrun |]. split; assumption.
Qed.

Lemma weekend_rolls_to_nearest_weekday_witness :
  (exists r : datetime.date,
      Following.adjustDay (mkdate 9999 12 26) ∅ ~~> Ok r
      /\ valid_date r = true
      /\ toordinal r
         = toordinal (mkdate 9999 12 26)
           + (if weekday (mkdate 9999 12 26) =? 5 then 2
              else if weekday (mkdate 9999 12 26) =? 6 then 1 else 0))
  /\ (exists r : datetime.date,
        Preceding.adjustDay (mkdate 9999 12 26) ∅ ~~> Ok r
        /\ valid_date r = true
        /\ toordinal r
           = toordinal (mkdate 9999 12 26)
             - (if weekday (mkdate 9999 12 26) =? 5 then 1
                else if weekday (mkdate 9999 12 26) =? 6 then 2 else 0)).
Proof. apply (weekend_rolls_to_nearest_weekday (mkdate 9999 12 26)). reflexivity. Defined.

Lemma ModifiedFollowing_stays_in_month_witness :
  exists r : datetime.date,
    ModifiedFollowing.adjustDay (mkdate 2023 12 31) ∅ ~~> Ok r
    /\ year r = year (mkdate 2023 12 31) /\ month r = month (mkdate 2023 12 31)
    /\ weekday r < 5
    /\ -2 <= toordinal r - toordinal (mkdate 2023 12 31) <= 2.
Proof. apply (ModifiedFollowing_stays_in_month (mkdate 2023 12 31)). reflexivity. Defined.

Lemma ModifiedPreceding_stays_in_month_witness :
  exists r : datetime.date,
    ModifiedPreceding.adjustDay (mkdate 2023 4 1) ∅ ~~> Ok r
    /\ year r = year (mkdate 2023 4 1) /\ month r = month (mkdate 2023 4 1)
    /\ weekday r < 5
    /\ -2 <= toordinal r - toordinal (mkdate 2023 4 1) <= 2.
Proof. apply (ModifiedPreceding_stays_in_month (mkdate 2023 4 1)). reflexivity. Defined.

(** ** The sign of a year fraction *)

Section Sign.

Lemma binary_round_aux_signed (s : bool) (m e : Z) (l : location) :
  0 <= m -> SFsigned s (binary_round_aux prec emax s m e l).
Proof.
  intros Hm. unfold binary_round_aux.
  pose proof (shr_fexp_nonneg prec emax m e l Hm) as H1.
  destruct (shr_fexp prec emax m e l) as [mrs' e']. cbn [fst] in H1.
  pose proof (shr_fexp_nonneg prec emax _ e' loc_Exact
                (round_nearest_even_nonneg _ (loc_of_shr_record mrs') H1)) as H2.
  destruct (shr_fexp prec emax _ e' loc_Exact) as [mrs'' e'']. cbn [fst] in H2.
  destruct (shr_m mrs''); [exact I | | lia].
  destruct (e'' <=? emax - prec); reflexivity.
Qed.

Lemma SFdiv_signed (s : bool) (x : spec_float) (m : positive) (e : Z) :
  SFsigned s x -> SFsigned s (SFdiv prec emax x (S754_finite false m e)).
Proof.
  destruct x as [sx | sx | | sx mx ex]; cbn [SFsigned SFdiv]; intros Hx;
    try exact I; try contradiction.
  - rewrite xorb_false_r. exact Hx.
  - subst sx. rewrite xorb_false_r. unfold SFdiv_core_binary.
    set (m' := match _ with Z0 => _ | Zpos _ => _ | Zneg _ => _ end).
    assert (Hm' : 0 <= m').
    { subst m'. destruct (ex - e - _) eqn:Hs; try lia.
      rewrite Z.shiftl_mul_pow2 by lia.
      apply Z.mul_nonneg_nonneg; [lia | apply Z.pow_nonneg; lia]. }
    pose proof (Z.div_pos m' (Zpos m) Hm' ltac:(lia)) as Hq.
    unfold Z.div in Hq. destruct (Z.div_eucl m' (Zpos m)) as [q r].
    apply binary_round_aux_signed. exact Hq.
Qed.

Lemma SFsigned_opp (s : bool) (x : spec_float) :
  SFsigned s x -> SFsigned (negb s) (SFopp x).
Proof. destruct x; cbn [SFsigned SFopp]; congruence. Qed.

Lemma float_of_int_signed (n : Z) :
  SFsigned (n <? 0) (Prim2SF (float_of_int n)).
Proof.
  assert (Hpos : forall p, SFsigned false
                   (Prim2SF (PrimFloat.of_uint63 (Uint63.of_Z (Zpos p))))).
  { intros p. rewrite of_uint63_spec.
    pose proof (Uint63.to_Z_bounded (Uint63.of_Z (Zpos p))) as Hb.
    destruct (Uint63.to_Z (Uint63.of_Z (Zpos p))) as [| q | q];
      cbn [binary_normalize]; [exact I | | lia].
    unfold binary_round. destruct (shl_align _ _ _) as [mz ez].
    apply binary_round_aux_signed. lia. }
  destruct n as [| p | p]; cbn [float_of_int].
  - vm_compute. exact I.
  - apply Hpos.
  - rewrite opp_spec. apply (SFsigned_opp false), Hpos.
Qed.

Lemma SFleb_zero_signed (x : spec_float) :
  SFsigned false x -> SFleb (S754_zero false) x = true.
Proof.
  destruct x as [s | s | | s m e]; cbn [SFsigned]; intros Hx;
    try contradiction; try subst s; reflexivity.
Qed.

Lemma SFleb_signed_zero (x : spec_float) :
  SFsigned true x -> SFleb x (S754_zero false) = true.
Proof.
  destruct x as [s | s | | s m e]; cbn [SFsigned]; intros Hx;
    try contradiction; try subst s; reflexivity.
Qed.

(** The quotient of an integer by a positive float has the sign of the
    integer. *)
Lemma truediv_int_float_sign (n : Z) (x : float) :
  finite_positive x ->
  (0 <= n -> (0 <=? truediv_int_float n x)%float = true)
  /\ (n <= 0 -> (truediv_int_float n x <=? 0)%float = true).
Proof.
  intros (m & e & Hx).
  pose proof (SFdiv_signed (n <? 0) _ m e (float_of_int_signed n)) as Hsign.
  unfold truediv_int_float. rewrite !leb_spec, div_spec, Hx.
  change (Prim2SF 0) with (S754_zero false).
  destruct (Z.ltb_spec n 0) as [Hneg | Hpos]; split; intros Hn.
  - lia.
  - apply SFleb_signed_zero, Hsign.
  - apply SFleb_zero_signed, Hsign.
  - assert (n = 0) as -> by lia. vm_compute. reflexivity.
Qed.

End Sign.

Section DayCountSign.

Variables start_date end_date : date.
Hypothesis Hstart : valid_date start_date = true.
Hypothesis Hend : valid_date end_date = true.

(** The 30/360 numerator has the sign of the interval, for clamped days [d1]
    and [d2] that stay within 1..30 and 1..31 and keep the order of the days
    of a month. *)
Lemma thirty360_numerator_sign (d1 d2 : Z) :
  1 <= d1 <= 30 -> 1 <= d2 <= 31 ->
  (day start_date <= day end_date -> d1 <= d2) ->
  (day end_date <= day start_date -> d2 <= d1) ->
  (toordinal start_date <= toordinal end_date ->
   0 <= 360 * (year end_date - year start_date)
        + 30 * (month end_date - month start_date) + (d2 - d1))
  /\ (toordinal end_date <= toordinal start_date ->
      360 * (year end_date - year start_date)
      + 30 * (month end_date - month start_date) + (d2 - d1) <= 0).
Proof.
  intros Hd1 Hd2 Hup Hdown.
  pose proof (valid_date_well_formed _ Hstart) as Hws.
  pose proof (valid_date_well_formed _ Hend) as Hwe.
  pose proof Hws as [Hms _]. pose proof Hwe as [Hme _].
  split; intros Hord.
  - destruct (toordinal_le_year_month _ _ Hws Hwe Hord) as [Hy | [Hy Hm]]; [lia |].
    destruct (Z.eq_dec (month start_date) (month end_date)) as [Heq | Hne]; [| lia].
    assert (day start_date <= day end_date)
      by (unfold toordinal, _ymd2ord in Hord; rewrite Hy, Heq in Hord; lia).
    lia.
  - destruct (toordinal_le_year_month _ _ Hwe Hws Hord) as [Hy | [Hy Hm]]; [lia |].
    destruct (Z.eq_dec (month start_date) (month end_date)) as [Heq | Hne]; [| lia].
    assert (day end_date <= day start_date)
      by (unfold toordinal, _ymd2ord in Hord; rewrite Hy, Heq in Hord; lia).
    lia.
Qed.

End DayCountSign.

(** X13: a year fraction has the sign of the interval: for valid dates each of
    the six conventions returns a value [>= 0.0] when the end date is not
    before the start date and a value [<= 0.0] when it is not after. *)
Theorem year_fraction_sign (convention : DayCountConvention)
  (start_date end_date : date) :
  valid_date start_date = true -> valid_date end_date = true ->
  (toordinal start_date <= toordinal end_date ->
   (0 <=? year_fraction convention start_date end_date)%float = true)
  /\ (toordinal end_date <= toordinal start_date ->
      (year_fraction convention start_date end_date <=? 0)%float = true).
Proof.
  intros Hs He.
  pose proof (valid_date_day_le_31 _ Hs) as Hds.
  pose proof (valid_date_day_le_31 _ He) as Hde.
  pose proof (thirty360_numerator_sign start_date end_date Hs He) as Hnum.
  destruct convention; cbn [year_fraction];
    unfold Actual360.year_fraction, Actual365.year_fraction,
      ActualActual.year_fraction, Thirty360.year_fraction,
      Thirty360US.year_fraction, Thirty360EU.year_fraction, days_between;
    cbv zeta; rewrite ?min_30_not_31.
  - destruct (truediv_int_float_sign (toordinal end_date - toordinal start_date)
                360%float finite_positive_360) as [Hpos Hneg].
    split; intros Hord; [apply Hpos | apply Hneg]; lia.
  - destruct (truediv_int_float_sign (toordinal end_date - toordinal start_date)
                365%float finite_positive_365) as [Hpos Hneg].
    split; intros Hord; [apply Hpos | apply Hneg]; lia.
  - set (leap := (year start_date mod 4 =? 0)
                 && (negb (year start_date mod 100 =? 0)
                     || (year start_date mod 400 =? 0))).
    destruct (truediv_int_float_sign (toordinal end_date - toordinal start_date)
                (float_of_int (if leap then 366 else 365))
                (finite_positive_year_length leap)) as [Hpos Hneg].
    split; intros Hord; [apply Hpos | apply Hneg]; lia.
  - specialize (Hnum (Z.min (day start_date) 30) (Z.min (day end_date) 30)
                  ltac:(lia) ltac:(lia) ltac:(lia) ltac:(lia)).
    destruct (truediv_int_float_sign
                (360 * (year end_date - year start_date)
                 + 30 * (month end_date - month start_date)
                 + (Z.min (day end_date) 30 - Z.min (day start_date) 30))
                360%float finite_positive_360) as [Hpos Hneg].
    split; intros Hord; [apply Hpos | apply Hneg]; apply Hnum, Hord.
  - set (d1 := if day start_date =? 31 then 30 else day start_date).
    set (d2 := if (day end_date =? 31) && (d1 =? 30) then 30 else day end_date).
    assert (Hclamp : 1 <= d1 <= 30 /\ 1 <= d2 <= 31
                     /\ (day start_date <= day end_date -> d1 <= d2)
                     /\ (day end_date <= day start_date -> d2 <= d1)).
    { subst d2 d1.
      destruct (Z.eqb_spec (day start_date) 31) as [H1 | H1].
      - change (30 =? 30) with true. rewrite andb_true_r.
        destruct (Z.eqb_spec (day end_date) 31); lia.
      - destruct (Z.eqb_spec (day end_date) 31), (Z.eqb_spec (day start_date) 30);
          cbn [andb]; lia. }
    destruct Hclamp as (H1 & H2 & H3 & H4). specialize (Hnum d1 d2 H1 H2 H3 H4).
    destruct (truediv_int_float_sign
                (360 * (year end_date - year start_date)
                 + 30 * (month end_date - month start_date) + (d2 - d1))
                360%float finite_positive_360) as [Hpos Hneg].
    split; intros Hord; [apply Hpos | apply Hneg]; apply Hnum, Hord.
  - specialize (Hnum (Z.min (day start_date) 30) (Z.min (day end_date) 30)
                  ltac:(lia) ltac:(lia) ltac:(lia) ltac:(lia)).
    destruct (truediv_int_float_sign
                (360 * (year end_date - year start_date)
                 + 30 * (month end_date - month start_date)
                 + (Z.min (day end_date) 30 - Z.min (day start_date) 30))
                360%float finite_positive_360) as [Hpos Hneg].
    split; intros Hord; [apply Hpos | apply Hneg]; apply Hnum, Hord.
Qed.

Lemma year_fraction_sign_witness :
  (toordinal (mkdate 2023 1 31) <= toordinal (mkdate 2023 3 1) ->
   (0 <=? year_fraction THIRTY_360_US (mkdate 2023 1 31) (mkdate 2023 3 1))%float = true)
  /\ (toordinal (mkdate 2023 3 1) <= toordinal (mkdate 2023 1 31) ->
      (year_fraction THIRTY_360_US (mkdate 2023 1 31) (mkdate 2023 3 1) <=? 0)%float
      = true).
Proof.
  apply (year_fraction_sign THIRTY_360_US (mkdate 2023 1 31) (mkdate 2023 3 1));
    reflexivity.
Defined.

(** X14: [Thirty360] and [Thirty360EU] are antisymmetric,
    [year_fraction(d1, d2) == -year_fraction(d2, d1)], on every pair of dates,
    and [Thirty360US] is when neither day is a 31st; for the 15th and the 31st
    of January 2023 [Thirty360US] is not, its end-day clamp looking at the
    start day. *)
Theorem thirty360_antisymmetric (d1 d2 : date) :
  float_eq (Thirty360.year_fraction d1 d2) (- Thirty360.year_fraction d2 d1)
  /\ float_eq (Thirty360EU.year_fraction d1 d2) (- Thirty360EU.year_fraction d2 d1)
  /\ (day d1 <> 31 -> day d2 <> 31 ->
      float_eq (Thirty360US.year_fraction d1 d2) (- Thirty360US.year_fraction d2 d1))
  /\ ~ float_eq
         (Thirty360US.year_fraction (mkdate 2023 1 15) (mkdate 2023 1 31))
         (- Thirty360US.year_fraction (mkdate 2023 1 31) (mkdate 2023 1 15)).
Proof.
  assert (Hswap : forall a b,
             float_eq (Thirty360.year_fraction a b) (- Thirty360.year_fraction b a)).
  { intros a b. unfold Thirty360.year_fraction. cbv zeta.
    replace (360 * (year b - year a) + 30 * (month b - month a)
             + (Z.min (day b) 30 - Z.min (day a) 30))
      with (- (360 * (year a - year b) + 30 * (month a - month b)
               + (Z.min (day a) 30 - Z.min (day b) 30))) by lia.
    apply truediv_opp, finite_positive_360. }
  split; [apply Hswap |]. split; [rewrite !Thirty360EU_is_Thirty360; apply Hswap |].
  split; [| vm_compute; discriminate].
  intros H1 H2. unfold Thirty360US.year_fraction. cbv zeta.
  apply Z.eqb_neq in H1, H2. rewrite H1, H2. cbn [andb].
  replace (360 * (year d2 - year d1) + 30 * (month d2 - month d1) + (day d2 - day d1))
    with (- (360 * (year d1 - year d2) + 30 * (month d1 - month d2)
             + (day d1 - day d2))) by lia.
  apply truediv_opp, finite_positive_360.
Qed.

(** X15: [ActualActual] is antisymmetric when the two dates lie in years of
    the same length; between 2023-12-31 and 2024-01-01 it is not: one day is
    1/365 in one direction and 1/366 in the other. *)
Theorem ActualActual_antisymmetric_within_year_length (d1 d2 : date) :
  (_is_leap (year d1) = _is_leap (year d2) ->
   float_eq (ActualActual.year_fraction d1 d2) (- ActualActual.year_fraction d2 d1))
  /\ ~ float_eq
         (ActualActual.year_fraction (mkdate 2023 12 31) (mkdate 2024 1 1))
         (- ActualActual.year_fraction (mkdate 2024 1 1) (mkdate 2023 12 31)).
Proof.
  split; [| vm_compute; discriminate].
  unfold _is_leap, ActualActual.year_fraction. cbv zeta. intros ->.
  replace (days_between d2 d1) with (- days_between d1 d2)
    by (unfold days_between; lia).
  apply (truediv_opp (days_between d1 d2)), finite_positive_year_length.
Qed.

(** X16: no convention ever returns NaN, whatever the two date records. *)
Theorem year_fraction_never_nan (convention : DayCountConvention)
  (start_date end_date : date) :
  PrimFloat.is_nan (year_fraction convention start_date end_date) = false.
Proof.
  unfold PrimFloat.is_nan. apply negb_false_iff.
  apply float_eq_refl, year_fraction_not_nan.
Qed.

(** X17: a whole calendar year counts for exactly [1.0] with [ActualActual],
    from the first of January of any year to the next, and one year between
    two dates of the same month and day counts for exactly [1.0] with the
    three 30/360 variants. *)
Theorem one_year_is_one (y m d : Z) :
  ActualActual.year_fraction (mkdate y 1 1) (mkdate (y + 1) 1 1) = 1%float
  /\ Thirty360.year_fraction (mkdate y m d) (mkdate (y + 1) m d) = 1%float
  /\ Thirty360US.year_fraction (mkdate y m d) (mkdate (y + 1) m d) = 1%float
  /\ Thirty360EU.year_fraction (mkdate y m d) (mkdate (y + 1) m d) = 1%float.
Proof.
  assert (H360 : forall d1 d2 : Z,
             d1 = d2 ->
             truediv_int_float (360 * (y + 1 - y) + 30 * (m - m) + (d2 - d1)) 360%float
             = 1%float).
  { intros d1 d2 ->. replace (360 * (y + 1 - y) + 30 * (m - m) + (d2 - d2)) with 360 by lia.
    reflexivity. }
  split; [| split; [| split]].
  - unfold ActualActual.year_fraction, days_between, toordinal, _ymd2ord,
      _days_before_month. cbn [year month day]. cbv zeta.
    rewrite days_before_year_succ. unfold _is_leap. month_tables.
    change (2 <? 1) with false. cbn [andb].
    destruct ((y mod 4 =? 0) && (negb (y mod 100 =? 0) || (y mod 400 =? 0)));
      match goal with
      | |- truediv_int_int ?n _ = _ => ring_simplify n
      end; reflexivity.
  - unfold Thirty360.year_fraction. cbn [year month day]. cbv zeta.
    apply H360. reflexivity.
  - unfold Thirty360US.year_fraction. cbn [year month day]. cbv zeta.
    apply H360. destruct (Z.eqb_spec d 31) as [-> | Hd]; reflexivity.
  - rewrite Thirty360EU_is_Thirty360.
    unfold Thirty360.year_fraction. cbn [year month day]. cbv zeta.
    apply H360. reflexivity.
Qed.

Section ModifiedIsPlain.

Variable holidays : gset date.

(** A backward walk that starts among non-business days ends where the walk
    from any later start among them ends. *)
Lemma backward_walk_from_later (d g r : date) (fuel : nat) :
  valid_date d = true -> valid_date g = true ->
  toordinal d <= toordinal g ->
  while_not_business_day (fun date => sub_days date 1) holidays g fuel = Some (Ok r) ->
  toordinal r < toordinal d ->
  Preceding.adjustDay d holidays ~~> Ok r.
Proof.
  intros Hd Hg Hdg Hrun Hlt.
  pose proof (backward_walk_ends holidays fuel g (Ok r) Hg Hrun)
    as (Hr & Hrbus & Hrg & Hfirst).
  destruct (backward_walk_total holidays d Hd) as (fuel' & res & Hrun').
  pose proof (backward_walk_ends holidays fuel' d res Hd Hrun') as Hends.
  destruct res as [r' | e].
  - destruct Hends as (Hr' & Hrbus' & Hrd' & Hfirst').
    assert (Heq : r' = r).
    { apply toordinal_inj; auto using valid_date_well_formed.
      destruct (Z.lt_trichotomy (toordinal r') (toordinal r)) as [Hl | [He | Hl]];
        [| exact He |].
      - rewrite Hfirst' in Hrbus by (auto; lia). discriminate.
      - rewrite Hfirst in Hrbus' by (auto; lia). discriminate. }
    subst r'. exists fuel'. exact Hrun'.
  - destruct Hends as (_ & Hnone). rewrite Hnone in Hrbus by (auto; lia). discriminate.
Qed.

Lemma forward_walk_from_earlier (d g r : date) (fuel : nat) :
  valid_date d = true -> valid_date g = true ->
  toordinal g <= toordinal d ->
  while_not_business_day (fun date => add_days date 1) holidays g fuel = Some (Ok r) ->
  toordinal d < toordinal r ->
  Following.adjustDay d holidays ~~> Ok r.
Proof.
  intros Hd Hg Hdg Hrun Hlt.
  pose proof (forward_walk_ends holidays fuel g (Ok r) Hg Hrun)
    as (Hr & Hrbus & Hrg & Hfirst).
  destruct (forward_walk_total holidays d Hd) as (fuel' & res & Hrun').
  pose proof (forward_walk_ends holidays fuel' d res Hd Hrun') as Hends.
  destruct res as [r' | e].
  - destruct Hends as (Hr' & Hrbus' & Hrd' & Hfirst').
    assert (Heq : r' = r).
    { apply toordinal_inj; auto using valid_date_well_formed.
      destruct (Z.lt_trichotomy (toordinal r') (toordinal r)) as [Hl | [He | Hl]];
        [| exact He |].
      - rewrite Hfirst in Hrbus' by (auto; lia). discriminate.
      - rewrite Hfirst' in Hrbus by (auto; lia). discriminate. }
    subst r'. exists fuel'. exact Hrun'.
  - destruct Hends as (_ & Hnone). rewrite Hnone in Hrbus by (auto; lia). discriminate.
Qed.

End ModifiedIsPlain.

(** X18: what [ModifiedFollowing.adjustDay] returns for a valid date is what
    [Following.adjustDay] returns, when that date has the month number of the
    input, and otherwise exactly what [Preceding.adjustDay] returns for the
    input date itself: starting the backward walk on the day before the
    forward result changes nothing, the days in between being no business
    days. *)
Theorem ModifiedFollowing_is_Following_or_Preceding
  (date r : date) (holidays : gset datetime.date) :
  valid_date date = true ->
  ModifiedFollowing.adjustDay date holidays ~~> Ok r ->
  (Following.adjustDay date holidays ~~> Ok r /\ month r = month date)
  \/ (Preceding.adjustDay date holidays ~~> Ok r
      /\ toordinal r < toordinal date
      /\ exists f : datetime.date,
          Following.adjustDay date holidays ~~> Ok f /\ month f <> month date).
Proof.
  intros Hd [fuel Hrun]. apply ModifiedFollowing_returns in Hrun.
  destruct Hrun as (f & Hfwd & [[Hmonth ->] | (Hmonth & g & Hstep & Hbwd)]).
  - left. split; [exists fuel; exact Hfwd | exact Hmonth].
  - right.
    pose proof (forward_walk_ends holidays fuel date (Ok f) Hd Hfwd)
      as (Hf & Hfbus & Hdf & Hfirst).
    assert (Hne : toordinal date <> toordinal f).
    { intros Heq. apply Hmonth. f_equal. symmetry.
      apply toordinal_inj; auto using valid_date_well_formed. }
    apply add_days_Ok in Hstep. destruct Hstep as (Hg & Hgord & _).
    pose proof (backward_walk_ends holidays fuel g (Ok r) Hg Hbwd)
      as (Hr & Hrbus & Hrg & _).
    assert (Hlt : toordinal r < toordinal date).
    { destruct (Z.lt_ge_cases (toordinal r) (toordinal date)) as [Hlt | Hge];
        [exact Hlt |].
      rewrite Hfirst in Hrbus by (auto; lia). discriminate. }
    split; [| split; [exact Hlt |]].
    + apply (backward_walk_from_later holidays date g r fuel); auto; lia.
    + exists f. split; [exists fuel; exact Hfwd | exact Hmonth].
Qed.

Lemma ModifiedFollowing_is_Following_or_Preceding_witness :
  (Following.adjustDay (mkdate 2023 12 31) ∅ ~~> Ok (mkdate 2023 12 29)
   /\ month (mkdate 2023 12 29) = month (mkdate 2023 12 31))
  \/ (Preceding.adjustDay (mkdate 2023 12 31) ∅ ~~> Ok (mkdate 2023 12 29)
      /\ toordinal (mkdate 2023 12 29) < toordinal (mkdate 2023 12 31)
      /\ exists f : datetime.date,
          Following.adjustDay (mkdate 2023 12 31) ∅ ~~> Ok f
          /\ month f <> month (mkdate 2023 12 31)).
Proof.
  apply (ModifiedFollowing_is_Following_or_Preceding (mkdate 2023 12 31)).
  - vm_compute. reflexivity.
  - exists 3%nat. vm_compute. reflexivity.
Defined.

(** X19: what [ModifiedPreceding.adjustDay] returns for a valid date is what
    [Preceding.adjustDay] returns, when that date has the month number of the
    input, and otherwise exactly what [Following.adjustDay] returns for the
    input date itself. *)
Theorem ModifiedPreceding_is_Preceding_or_Following
  (date r : date) (holidays : gset datetime.date) :
  valid_date date = true ->
  ModifiedPreceding.adjustDay date holidays ~~> Ok r ->
  (Preceding.adjustDay date holidays ~~> Ok r /\ month r = month date)
  \/ (Following.adjustDay date holidays ~~> Ok r
      /\ toordinal date < toordinal r
      /\ exists p : datetime.date,
          Preceding.adjustDay date holidays ~~> Ok p /\ month p <> month date).
Proof.
  intros Hd [fuel Hrun]. apply ModifiedPreceding_returns in Hrun.
  destruct Hrun as (p & Hbwd & [[Hmonth ->] | (Hmonth & g & Hstep & Hfwd)]).
  - left. split; [exists fuel; exact Hbwd | exact Hmonth].
  - right.
    pose proof (backward_walk_ends holidays fuel date (Ok p) Hd Hbwd)
      as (Hp & Hpbus & Hpd & Hfirst).
    assert (Hne : toordinal date <> toordinal p).
    { intros Heq. apply Hmonth. f_equal. symmetry.
      apply toordinal_inj; auto using valid_date_well_formed. }
    apply add_days_Ok in Hstep. destruct Hstep as (Hg & Hgord & _).
    pose proof (forward_walk_ends holidays fuel g (Ok r) Hg Hfwd)
      as (Hr & Hrbus & Hgr & _).
    assert (Hlt : toordinal date < toordinal r).
    { destruct (Z.lt_ge_cases (toordinal date) (toordinal r)) as [Hlt | Hge];
        [exact Hlt |].
      rewrite Hfirst in Hrbus by (auto; lia). discriminate. }
    split; [| split; [exact Hlt |]].
    + apply (forward_walk_from_earlier holidays date g r fuel); auto; lia.
    + exists p. split; [exists fuel; exact Hbwd | exact Hmonth].
Qed.

Lemma ModifiedPreceding_is_Preceding_or_Following_witness :
  (Preceding.adjustDay (mkdate 2023 4 1) ∅ ~~> Ok (mkdate 2023 4 3)
   /\ month (mkdate 2023 4 3) = month (mkdate 2023 4 1))
  \/ (Following.adjustDay (mkdate 2023 4 1) ∅ ~~> Ok (mkdate 2023 4 3)
      /\ toordinal (mkdate 2023 4 1) < toordinal (mkdate 2023 4 3)
      /\ exists p : datetime.date,
          Preceding.adjustDay (mkdate 2023 4 1) ∅ ~~> Ok p
          /\ month p <> month (mkdate 2023 4 1)).
Proof.
  apply (ModifiedPreceding_is_Preceding_or_Following (mkdate 2023 4 1)).
  - vm_compute. reflexivity.
  - exists 3%nat. vm_compute. reflexivity.
Defined.
